(** * openwebui-migrator: the SQLite to PostgreSQL migration script

    A shallow embedding of [migrator.py] and the properties of its
    identifier sanitizer, type mapper, row translator and per-table
    migration loop.

    Modelling conventions.
    - A Python [str] is the [string] of its UTF-8 bytes. White space is
      that of Unicode. [lower] converts the ASCII letters and keeps
      every other byte: the words the script compares a lowercased name
      with are ASCII words without the letter k, the one ASCII letter
      that is the lower case of a character outside ASCII (U+212A).
      [upper] converts the ASCII letters and takes the upper case of the
      characters outside ASCII from the Unicode tables of the runtime,
      a parameter.
    - A [dict] is a [gmap]; [d.get(k)] is [d !! k].
    - A value read from a SQLite row is one of the five Python types the
      [sqlite3] module produces: [None], [int], [float], [str], [bytes].
    - A Python exception is the left injection of a sum.
    - The destination database is an oracle: for every table the answers
      it gave to the three catalogue queries are an input, the statements
      sent to it are the output, and it is taken to accept them.
    - The embedding starts where [migrate] enters its [try] block, with
      both connections open. *)

From Stdlib Require Import ZArith Ascii String DecimalString DecimalPos DecimalZ PrimFloat.
From stdpp Require Import base decidable option list strings gmap.

Local Open Scope string_scope.
Local Open Scope Z_scope.

(** ** Python string primitives *)

Module PyStr.

Definition code (c : ascii) : N := N_of_ascii c.

Definition is_upper (c : ascii) : bool :=
  ((65 <=? code c) && (code c <=? 90))%N.

Definition is_lower (c : ascii) : bool :=
  ((97 <=? code c) && (code c <=? 122))%N.

Definition lower_char (c : ascii) : ascii :=
  if is_upper c then ascii_of_N (code c + 32) else c.

Definition upper_char (c : ascii) : ascii :=
  if is_lower c then ascii_of_N (code c - 32) else c.

(** [s.lower()] *)
Fixpoint lower (s : string) : string :=
  match s with
  | EmptyString => EmptyString
  | String c s' => String (lower_char c) (lower s')
  end.

(** The case tables of Unicode, as far as the script reaches them: the
    upper case of a run of characters outside ASCII. *)
Record unicode_tables : Type := UnicodeTables {
  upper_of : string -> string
}.

(** The upper case of a run of characters outside ASCII, none for an
    empty run. *)
Definition upper_run (unicode : unicode_tables) (run : string) : string :=
  match run with
  | EmptyString => EmptyString
  | String _ _ => upper_of unicode run
  end.

(** [run] holds the bytes outside ASCII met since the last ASCII
    character. *)
Fixpoint upper_from (unicode : unicode_tables) (run s : string) : string :=
  match s with
  | EmptyString => upper_run unicode run
  | String c s' =>
      if (code c <? 128)%N
      then upper_run unicode run
           +:+ String (upper_char c) (upper_from unicode EmptyString s')
      else upper_from unicode (run +:+ String c EmptyString) s'
  end.

(** [s.upper()]. An ASCII letter has its own upper case and every other
    ASCII character is kept; the upper case of the characters outside
    ASCII, which can be ASCII letters (as for U+0131, U+017F, U+00DF and
    the ligatures U+FB00 to U+FB06), is that of the Unicode tables of
    the Python runtime, [unicode], applied to every run of them. *)
Definition upper (unicode : unicode_tables) (s : string) : string :=
  upper_from unicode EmptyString s.

(** A string given by the numbers of its bytes. *)
Fixpoint bytes (l : list N) : string :=
  match l with
  | [] => EmptyString
  | n :: l' => String (ascii_of_N n) (bytes l')
  end.

(** The characters for which [c.isspace()] holds, each in its UTF-8
    form: the ASCII white space (tab to carriage return, the separators
    0x1c-0x1f, the space), then U+0085, U+00A0, U+1680, U+2000 to
    U+200A, U+2028, U+2029, U+202F, U+205F and U+3000. *)
Definition white_space : list string :=
  map bytes
    [[9]; [10]; [11]; [12]; [13]; [28]; [29]; [30]; [31]; [32];
     [194; 133]; [194; 160]; [225; 154; 128];
     [226; 128; 128]; [226; 128; 129]; [226; 128; 130]; [226; 128; 131];
     [226; 128; 132]; [226; 128; 133]; [226; 128; 134]; [226; 128; 135];
     [226; 128; 136]; [226; 128; 137]; [226; 128; 138];
     [226; 128; 168]; [226; 128; 169]; [226; 128; 175]; [226; 129; 159];
     [227; 128; 128]]%N.

(** [w] stands at the start of [s]. *)
Fixpoint starts (w s : string) : bool :=
  match w with
  | EmptyString => true
  | String a w' =>
      match s with
      | EmptyString => false
      | String b s' => Ascii.eqb a b && starts w' s'
      end
  end.

(** The number of bytes of the first of [patterns] that stands at the
    start of [s]; 0 when none does. *)
Fixpoint match_any (patterns : list string) (s : string) : nat :=
  match patterns with
  | [] => O
  | w :: ws => if starts w s then String.length w else match_any ws s
  end.

(** The number of bytes of the white-space character at the start of
    [s]; 0 when [s] does not start with one. *)
Definition space_len (s : string) : nat := match_any white_space s.

(** [skip] counts the bytes of a white-space character that remain to be
    passed. *)
Fixpoint lstrip_from (skip : nat) (s : string) : string :=
  match s with
  | EmptyString => EmptyString
  | String _ s' =>
      match skip with
      | S k => lstrip_from k s'
      | O =>
          match space_len s with
          | O => s
          | S k => lstrip_from k s'
          end
      end
  end.

(** [s.lstrip()] *)
Definition lstrip (s : string) : string := lstrip_from 0 s.

Fixpoint all_space_from (skip : nat) (s : string) : bool :=
  match s with
  | EmptyString => true
  | String _ s' =>
      match skip with
      | S k => all_space_from k s'
      | O =>
          match space_len s with
          | O => false
          | S k => all_space_from k s'
          end
      end
  end.

(** [s] holds white-space characters only. *)
Definition all_space (s : string) : bool := all_space_from 0 s.

(** [s.rstrip()]: the text up to the point from which only white space
    follows. *)
Fixpoint rstrip (s : string) : string :=
  match s with
  | EmptyString => EmptyString
  | String c s' => if all_space s then EmptyString else String c (rstrip s')
  end.

(** [s.strip()] *)
Definition strip (s : string) : string := rstrip (lstrip s).

(** [s.startswith(p)] *)
Definition startswith (s p : string) : bool := String.prefix p s.

(** Scanning loop shared by [replace] and [split]: [skip] counts the
    characters of an occurrence of [old] that remain to be passed. *)
Fixpoint replace_from (old new : string) (skip : nat) (s : string) : string :=
  match s with
  | EmptyString => EmptyString
  | String c s' =>
      match skip with
      | S k => replace_from old new k s'
      | O =>
          if String.prefix old s
          then new +:+ replace_from old new (String.length old - 1) s'
          else String c (replace_from old new 0 s')
      end
  end.

Fixpoint interleave (new s : string) : string :=
  match s with
  | EmptyString => EmptyString
  | String c s' => String c (new +:+ interleave new s')
  end.

(** [s.replace(old, new)]: every non-overlapping occurrence of [old],
    from the left; an empty [old] matches between any two characters
    and at both ends. *)
Definition replace (s old new : string) : string :=
  match old with
  | EmptyString => new +:+ interleave new s
  | String _ _ => replace_from old new 0 s
  end.

Fixpoint split_from (sep : string) (skip : nat) (s : string) : list string :=
  match s with
  | EmptyString => [EmptyString]
  | String c s' =>
      match skip with
      | S k => split_from sep k s'
      | O =>
          if String.prefix sep s
          then EmptyString :: split_from sep (String.length sep - 1) s'
          else match split_from sep 0 s' with
               | piece :: pieces => String c piece :: pieces
               | [] => [String c EmptyString]
               end
      end
  end.

(** [s.split(sep)]: [None] stands for the [ValueError] that an empty
    separator raises. *)
Definition split (s sep : string) : option (list string) :=
  match sep with
  | EmptyString => None
  | String _ _ => Some (split_from sep 0 s)
  end.

(** [sep.join(pieces)] *)
Definition join (sep : string) (pieces : list string) : string :=
  String.concat sep pieces.

(** [chr(n)] on the range of a byte *)
Definition chr (n : N) : string := String (ascii_of_N n) EmptyString.

(** [str(n)] for an [int] *)
Definition of_int (n : Z) : string := NilZero.string_of_int (Z.to_int n).

End PyStr.

(** ** Values of a SQLite row and Python exceptions *)

Inductive value : Type :=
| VNone
| VInt (n : Z)
| VFloat (x : float)
| VStr (s : string)
| VBytes (b : string).

Inductive exn : Type :=
| AttributeError
| TypeError
| ValueError.

Definition result (A : Type) : Type := exn + A.

Definition ret {A : Type} (a : A) : result A := inr a.

Definition raise {A : Type} (e : exn) : result A := inl e.

Definition bind {A B : Type} (m : result A) (k : A -> result B) : result B :=
  match m with
  | inl e => inl e
  | inr a => k a
  end.

Notation "'let*' x ':=' m 'in' k" := (bind m (fun x => k))
  (at level 10, x name, m at level 100, k at level 200).

(** Truth value of a row value, as [not value] tests it. *)
Definition truthy (v : value) : bool :=
  match v with
  | VNone => false
  | VInt n => negb (n =? 0)
  | VFloat x => negb (PrimFloat.eqb x PrimFloat.zero)
  | VStr s => negb (String.eqb s EmptyString)
  | VBytes b => negb (String.eqb b EmptyString)
  end.

(** [value == 1]: an [int] or a [float] compares by its number, a
    [str], [bytes] or [None] never equals an [int]. *)
Definition eq_one (v : value) : bool :=
  match v with
  | VInt n => n =? 1
  | VFloat x => PrimFloat.eqb x PrimFloat.one
  | VNone | VStr _ | VBytes _ => false
  end.

(** [value.split(sep)]: only [str] has a [split] that takes a [str]. *)
Definition value_split (v : value) (sep : string) : result (list string) :=
  match v with
  | VStr s =>
      match PyStr.split s sep with
      | Some pieces => ret pieces
      | None => raise ValueError
      end
  | VBytes _ => raise TypeError
  | VNone | VInt _ | VFloat _ => raise AttributeError
  end.

(** [repr] of a [bytes] object, which is what [str] gives for it. *)
Module PyBytes.

Fixpoint has (c : ascii) (b : string) : bool :=
  match b with
  | EmptyString => false
  | String d b' => Ascii.eqb c d || has c b'
  end.

Definition hex_digit (n : N) : ascii :=
  if (n <? 10)%N then ascii_of_N (48 + n) else ascii_of_N (87 + n).

Definition backslash : ascii := ascii_of_N 92.

Definition escape (quote c : ascii) : string :=
  let n := PyStr.code c in
  if Ascii.eqb c quote || Ascii.eqb c backslash
  then String backslash (String c EmptyString)
  else if (n =? 9)%N then String backslash "t"
  else if (n =? 10)%N then String backslash "n"
  else if (n =? 13)%N then String backslash "r"
  else if (n <? 32)%N || (127 <=? n)%N
  then String backslash
         (String "x" (String (hex_digit (n / 16)) (String (hex_digit (n mod 16)) EmptyString)))
  else String c EmptyString.

Fixpoint body (quote : ascii) (b : string) : string :=
  match b with
  | EmptyString => EmptyString
  | String c b' => escape quote c +:+ body quote b'
  end.

Definition repr (b : string) : string :=
  let quote :=
    if has (ascii_of_N 39) b && negb (has (ascii_of_N 34) b)
    then ascii_of_N 34 else ascii_of_N 39 in
  String "b" (String quote (body quote b +:+ String quote EmptyString)).

End PyBytes.

(** ** Rows of the catalogue queries and of the source *)

(** A row of [PRAGMA table_info]; the loop reads its entries 1 and 2. *)
Record sqlite_column : Type := SqliteColumn {
  cid : Z;
  col_name : string;
  col_type : string
}.

(** A row of the [information_schema.columns] query. *)
Record pg_column : Type := PgColumn {
  column_name : string;
  data_type : string;
  udt_name : string
}.

(** A table of the source: its name in [sqlite_master], its
    [PRAGMA table_info], and the names and rows of [SELECT *]. *)
Record source_table : Type := SourceTable {
  table_name : string;
  sqlite_schema : list sqlite_column;
  column_names : list string;
  rows : list (list value)
}.

(** What the destination answered for one table: the [EXISTS] query,
    [COUNT] (asked only when the table exists) and the column query. *)
Record dest_answers : Type := DestAnswers {
  table_exists : bool;
  row_count : Z;
  pg_columns : list pg_column
}.

(** What the script does to the destination. *)
Inductive pg_action : Type :=
| Execute (sql : string)
| Commit
| Rollback.

(** ** The decision of the planner, in the words of the specification *)

Inductive decision : Type :=
| Skip (reason : string)
| CreateAndMigrate
| MigrateIntoExisting.

Definition exclusion_set : gset string :=
  {[ "migratehistory"; "alembic_version" ]}.

Definition plan (tableName : string) (destExists : bool) (destRowCount : Z) : decision :=
  if bool_decide (tableName ∈ exclusion_set) then Skip "migration bookkeeping table"
  else if destExists && (destRowCount >? 0) then Skip "destination already populated"
  else if destExists then MigrateIntoExisting
  else CreateAndMigrate.

(** ** The type mapper and the literals, in the words of the specification *)

Module Spec.

(** Rule 1, then the fixed table of rule 2, then the default. *)
Definition mapType (unicode : PyStr.unicode_tables) (sourceType columnName : string)
  : string :=
  if String.eqb (PyStr.lower columnName) "scope" then "TEXT[]"
  else
    let t := PyStr.upper unicode sourceType in
    if String.eqb t "INTEGER" then "INTEGER"
    else if String.eqb t "REAL" then "DOUBLE PRECISION"
    else if String.eqb t "TEXT" then "TEXT"
    else if String.eqb t "BLOB" then "BYTEA"
    else if String.eqb t "BOOLEAN" then "BOOLEAN"
    else if String.eqb t "TIMESTAMP" then "TIMESTAMP"
    else if String.eqb t "JSON" then "JSONB"
    else if String.eqb t "VARCHAR(255)" then "VARCHAR(255)"
    else "TEXT".

(** The fixed table of rule 2. *)
Definition type_table : list (string * string) :=
  [("INTEGER", "INTEGER"); ("REAL", "DOUBLE PRECISION"); ("TEXT", "TEXT");
   ("BLOB", "BYTEA"); ("BOOLEAN", "BOOLEAN"); ("TIMESTAMP", "TIMESTAMP");
   ("JSON", "JSONB"); ("VARCHAR(255)", "VARCHAR(255)")].

Definition single_quote : ascii := ascii_of_N 39.

Definition comma : ascii := ascii_of_N 44.

(** Every single quote written twice, every other character as it is. *)
Fixpoint double_quotes (s : string) : string :=
  match s with
  | EmptyString => EmptyString
  | String c s' =>
      if Ascii.eqb c single_quote
      then String single_quote (String single_quote (double_quotes s'))
      else String c (double_quotes s')
  end.

(** A string between two single quotes, its own quotes doubled. *)
Definition literal (s : string) : string :=
  String single_quote (double_quotes s +:+ String single_quote EmptyString).

(** The pieces of a string between its commas, from left to right. *)
Fixpoint pieces (s : string) : list string :=
  match s with
  | EmptyString => [EmptyString]
  | String c s' =>
      if Ascii.eqb c comma then EmptyString :: pieces s'
      else match pieces s' with
           | p :: ps => String c p :: ps
           | [] => [String c EmptyString]
           end
  end.

Fixpoint occurs (c : ascii) (s : string) : bool :=
  match s with
  | EmptyString => false
  | String d s' => Ascii.eqb c d || occurs c s'
  end.

Definition first_char (s : string) : option ascii :=
  match s with
  | EmptyString => None
  | String c _ => Some c
  end.

(** The white-space characters of Unicode, by code point. *)
Definition white_space : list N :=
  [9; 10; 11; 12; 13; 28; 29; 30; 31; 32; 133; 160; 5760;
   8192; 8193; 8194; 8195; 8196; 8197; 8198; 8199; 8200; 8201; 8202;
   8232; 8233; 8239; 8287; 12288]%N.

Definition byte (n : N) : ascii := ascii_of_N n.

(** The UTF-8 form of a code point. *)
Definition utf8 (n : N) : string :=
  if (n <? 128)%N then String (byte n) EmptyString
  else if (n <? 2048)%N
  then String (byte (192 + n / 64)) (String (byte (128 + n mod 64)) EmptyString)
  else if (n <? 65536)%N
  then String (byte (224 + n / 4096))
         (String (byte (128 + (n / 64) mod 64))
            (String (byte (128 + n mod 64)) EmptyString))
  else String (byte (240 + n / 262144))
         (String (byte (128 + (n / 4096) mod 64))
            (String (byte (128 + (n / 64) mod 64))
               (String (byte (128 + n mod 64)) EmptyString))).

(** A string of white-space characters. *)
Inductive white : string -> Prop :=
| white_nil : white EmptyString
| white_cons (n : N) (s : string) :
    n ∈ white_space -> white s -> white (utf8 n +:+ s).

Definition starts_with_space (t : string) : Prop :=
  exists n u, n ∈ white_space /\ t = utf8 n +:+ u.

Definition ends_with_space (t : string) : Prop :=
  exists n u, n ∈ white_space /\ t = u +:+ utf8 n.

(** [t] is [s] without the white space around it. *)
Definition trimmed (s t : string) : Prop :=
  (exists l r, s = l +:+ t +:+ r /\ white l /\ white r)
  /\ ~ starts_with_space t /\ ~ ends_with_space t.

(** A value is numerically 1: the integer 1, or a float equal to 1.0. *)
Definition numerically_one (v : value) : Prop :=
  v = VInt 1 \/ exists x, v = VFloat x /\ PrimFloat.eqb x PrimFloat.one = true.

End Spec.

(** A rendering of floats for the sample rows, none of which holds a
    float. *)
Definition no_float : float -> string := fun _ => EmptyString.

(** An upper case for the sample strings, none of which holds a
    character outside ASCII. *)
Definition no_case : PyStr.unicode_tables := PyStr.UnicodeTables (fun run => run).

(** ** Reading the literals back

    How a reader of SQL with standard-conforming strings takes a string
    constant and a decimal integer off the text of a statement. *)

Module Sql.

(** The text after the opening quote, up to the first quote that is not
    followed by a second one; a pair of quotes stands for one quote. The
    result is the string read and the text that follows the constant,
    [None] when the constant is not closed. *)
Fixpoint read_body (s : string) : option (string * string) :=
  match s with
  | EmptyString => None
  | String c s' =>
      if Ascii.eqb c Spec.single_quote
      then match s' with
           | String d s'' =>
               if Ascii.eqb d Spec.single_quote
               then match read_body s'' with
                    | Some (v, rest) => Some (String Spec.single_quote v, rest)
                    | None => None
                    end
               else Some (EmptyString, s')
           | EmptyString => Some (EmptyString, EmptyString)
           end
      else match read_body s' with
           | Some (v, rest) => Some (String c v, rest)
           | None => None
           end
  end.

Definition read_literal (s : string) : option (string * string) :=
  match s with
  | String c s' => if Ascii.eqb c Spec.single_quote then read_body s' else None
  | EmptyString => None
  end.

(** A decimal integer with an optional minus sign. *)
Definition read_int (s : string) : option Z :=
  option_map Z.of_int (NilZero.int_of_string s).

(** The number of occurrences of a character. *)
Fixpoint count (c : ascii) (s : string) : nat :=
  match s with
  | EmptyString => O
  | String d s' => ((if Ascii.eqb c d then 1 else 0) + count c s')%nat
  end.

End Sql.

(** ** The program *)

Section Migrator.

(** [str] of a [float] (its shortest decimal form that reads back to
    the same number) belongs to the Python runtime. *)
Variable float_repr : float -> string.

(** The upper case of the characters outside ASCII belongs to the
    Unicode tables of the Python runtime. *)
Variable unicode_upper : PyStr.unicode_tables.

Definition squote : string := PyStr.chr 39.

Definition dquote : string := PyStr.chr 34.

(** [type_mapping], the dictionary literal of [sqlite_to_pg_type] *)
Definition type_mapping : gmap string string :=
  <["INTEGER" := "INTEGER"]>
  (<["REAL" := "DOUBLE PRECISION"]>
  (<["TEXT" := "TEXT"]>
  (<["BLOB" := "BYTEA"]>
  (<["BOOLEAN" := "BOOLEAN"]>
  (<["TIMESTAMP" := "TIMESTAMP"]>
  (<["JSON" := "JSONB"]>
  (<["VARCHAR(255)" := "VARCHAR(255)"]> ∅))))))).

Definition sqlite_to_pg_type (sqlite_type column_name : string) : string :=
  if String.eqb (PyStr.lower column_name) "scope" then "TEXT[]"
  else
    let sqlite_type := PyStr.upper unicode_upper sqlite_type in
    default "TEXT" (type_mapping !! sqlite_type).

Definition reserved_keywords : list string :=
  ["user"; "group"; "order"; "table"; "select"; "where"; "from"; "index";
   "constraint"].

Definition get_safe_identifier (identifier : string) : string :=
  if bool_decide (PyStr.lower identifier ∈ reserved_keywords)
  then dquote +:+ identifier +:+ dquote
  else identifier.

(** [str(value)] *)
Definition str (v : value) : string :=
  match v with
  | VNone => "None"
  | VInt n => PyStr.of_int n
  | VFloat x => float_repr x
  | VStr s => s
  | VBytes b => PyBytes.repr b
  end.

(** The dictionary built from the rows of the column query: a later
    row of the same column name overwrites an earlier one. *)
Definition pg_column_types (cols : list pg_column) : gmap string string :=
  fold_left
    (fun types col =>
       <[column_name col :=
           if PyStr.startswith (udt_name col) "_" then "ARRAY" else data_type col]> types)
    cols ∅.

(** The quoted form of a string, [f"'{s.replace(chr(39), chr(39)+chr(39))}'"] *)
Definition quoted (s : string) : string :=
  squote +:+ PyStr.replace s (PyStr.chr 39) (PyStr.chr 39 +:+ PyStr.chr 39) +:+ squote.

(** The body of the loop over [zip(column_names, row)]: the literal
    appended to [values] for one column. *)
Definition translate_value
    (types : gmap string string) (name : string) (v : value) : result string :=
  let col_type := types !! name in
  match v with
  | VNone => ret "NULL"
  | _ =>
      if bool_decide (col_type = Some "boolean")
      then ret (if eq_one v then "true" else "false")
      else if bool_decide (col_type = Some "ARRAY")
      then
        if negb (truthy v) then ret "NULL"
        else
          let* pieces := value_split v "," in
          let array_values := map (fun p => quoted (PyStr.strip p)) pieces in
          ret ("ARRAY[" +:+ PyStr.join "," array_values +:+ "]")
      else
        match v with
        | VStr s => ret (quoted s)
        | _ => ret (str v)
        end
  end.

Fixpoint translate_pairs
    (types : gmap string string) (pairs : list (string * value)) : result (list string) :=
  match pairs with
  | [] => ret []
  | (name, v) :: rest =>
      let* literal := translate_value types name v in
      let* literals := translate_pairs types rest in
      ret (literal :: literals)
  end.

(** The list [values] after the loop over [zip(column_names, row)] *)
Definition translate_row
    (types : gmap string string) (names : list string) (row : list value)
  : result (list string) :=
  translate_pairs types (zip names row).

Definition insert_sql
    (safe_table_name : string) (types : gmap string string)
    (names : list string) (row : list value) : result string :=
  let columns_sql := PyStr.join ", " (map get_safe_identifier names) in
  let* values := translate_row types names row in
  let values_sql := PyStr.join ", " values in
  ret ("INSERT INTO " +:+ safe_table_name +:+ " (" +:+ columns_sql
       +:+ ") VALUES (" +:+ values_sql +:+ ")").

Definition create_table_sql (safe_table_name : string) (schema : list sqlite_column) : string :=
  let columns :=
    map (fun col =>
           get_safe_identifier (col_name col) +:+ " "
           +:+ sqlite_to_pg_type (col_type col) (col_name col))
        schema in
  "CREATE TABLE IF NOT EXISTS " +:+ safe_table_name +:+ " ("
  +:+ PyStr.join ", " columns +:+ ")".

(** The loop over [rows]: the inserts executed, and the exception that
    ended the loop if a row raised one. *)
Fixpoint migrate_rows
    (safe_table_name : string) (types : gmap string string)
    (names : list string) (rs : list (list value)) : list pg_action * option exn :=
  match rs with
  | [] => ([], None)
  | row :: rest =>
      match insert_sql safe_table_name types names row with
      | inl e => ([], Some e)
      | inr sql =>
          let '(actions, raised) := migrate_rows safe_table_name types names rest in
          (Execute sql :: actions, raised)
      end
  end.

(** One turn of the loop over the tables of the source. *)
Definition migrate_table (src : source_table) (dest : dest_answers)
  : list pg_action * option exn :=
  let safe_table_name := get_safe_identifier (table_name src) in
  let migrating :=
    let types := pg_column_types (pg_columns dest) in
    let created :=
      if negb (table_exists dest)
      then [Execute (create_table_sql safe_table_name (sqlite_schema src))]
      else [] in
    match migrate_rows safe_table_name types (column_names src) (rows src) with
    | (inserted, Some e) => ((created ++ inserted)%list, Some e)
    | (inserted, None) => ((created ++ inserted ++ [Commit])%list, None)
    end in
  if bool_decide (table_name src ∈ ["migratehistory"; "alembic_version"])
  then ([], None)
  else if table_exists dest
  then if row_count dest >? 0 then ([], None) else migrating
  else migrating.

(** The loop over the tables: the actions of every table reached, in
    order, each under the name of its table. *)
Fixpoint migrate_loop (tables : list (source_table * dest_answers))
  : list (string * list pg_action) * option exn :=
  match tables with
  | [] => ([], None)
  | (src, dest) :: rest =>
      match migrate_table src dest with
      | (actions, Some e) => ([(table_name src, actions)], Some e)
      | (actions, None) =>
          let '(log, raised) := migrate_loop rest in
          ((table_name src, actions) :: log, raised)
      end
  end.

(** The [try] block of [migrate] with its handler: an exception rolls
    the open transaction back and is raised again. *)
Definition migrate (tables : list (source_table * dest_answers))
  : list (string * list pg_action) * list pg_action * option exn :=
  match migrate_loop tables with
  | (log, Some e) => (log, [Rollback], Some e)
  | (log, None) => (log, [], None)
  end.

(** What the orchestrator does on a decision of the planner, in the
    words of the specification. *)
Definition carry_out (d : decision) (src : source_table) (dest : dest_answers)
  : list pg_action * option exn :=
  let safe := get_safe_identifier (table_name src) in
  let create := Execute (create_table_sql safe (sqlite_schema src)) in
  let '(inserted, raised) :=
    migrate_rows safe (pg_column_types (pg_columns dest)) (column_names src) (rows src) in
  let finish := match raised with None => [Commit] | Some _ => [] end in
  match d with
  | Skip _ => ([], None)
  | MigrateIntoExisting => ((inserted ++ finish)%list, raised)
  | CreateAndMigrate => ((create :: inserted ++ finish)%list, raised)
  end.

(** ** Shorthands for the statements of the further properties *)

(** The kind recorded for a row of the column query. *)
Definition column_kind (col : pg_column) : string :=
  if PyStr.startswith (udt_name col) "_" then "ARRAY" else data_type col.

(** The literal of a value whose column has neither the boolean nor the
    array kind. *)
Definition plain_literal (v : value) : string :=
  match v with
  | VNone => "NULL"
  | VStr s => Spec.literal s
  | _ => str v
  end.

(** The entry of the log for one table of a run. *)
Definition table_report (t : source_table * dest_answers) : string * list pg_action :=
  (table_name t.1, (migrate_table t.1 t.2).1).

(** The table is left alone: a bookkeeping table, or one that has rows
    at the destination. *)
Definition left_alone (t : source_table * dest_answers) : Prop :=
  table_name t.1 ∈ exclusion_set
  \/ (table_exists t.2 = true /\ row_count t.2 > 0).

(** ** Sample data: the end-to-end scenario of the specification *)

Definition orders_table : source_table :=
  SourceTable "orders"
    [SqliteColumn 0 "id" "INTEGER"; SqliteColumn 1 "name" "TEXT";
     SqliteColumn 2 "scope" "TEXT"]
    ["id"; "name"; "scope"]
    [[VInt 1; VStr "A's"; VStr "read,write"]].

(** The destination has no table of that name: the catalogue has no
    column of it either. *)
Definition absent_at_destination : dest_answers := DestAnswers false 0 [].

(** The destination has the table, empty, with [scope] a text array. *)
Definition empty_at_destination : dest_answers :=
  DestAnswers true 0
    [PgColumn "id" "integer" "int4"; PgColumn "name" "text" "text";
     PgColumn "scope" "ARRAY" "_text"].

(** The destination has the table, with three rows. *)
Definition populated_at_destination : dest_answers :=
  DestAnswers true 3
    [PgColumn "id" "integer" "int4"; PgColumn "name" "text" "text";
     PgColumn "scope" "ARRAY" "_text"].

(** ** Facts about the string primitives *)

Lemma append_nil (t : string) : EmptyString +:+ t = t.
Proof. reflexivity. Qed.

Lemma append_cons (c : ascii) (s t : string) :
  String c s +:+ t = String c (s +:+ t).
Proof. reflexivity. Qed.

Lemma append_assoc (s t u : string) : (s +:+ t) +:+ u = s +:+ (t +:+ u).
Proof.
  induction s as [|c s IH]; [reflexivity | now rewrite !append_cons, IH].
Qed.

Lemma length_append (s t : string) :
  String.length (s +:+ t) = (String.length s + String.length t)%nat.
Proof.
  induction s as [|c s IH]; [reflexivity |].
  rewrite append_cons. simpl. now rewrite IH.
Qed.

Lemma wrapped_differs (s : string) : dquote +:+ s +:+ dquote <> s.
Proof.
  intros H. apply (f_equal String.length) in H.
  rewrite !length_append in H. simpl in H. lia.
Qed.

Lemma reserved_first_letter (s : string) :
  s ∈ reserved_keywords ->
  exists c s', s = String c s' /\ PyStr.is_lower c = true.
Proof.
  unfold reserved_keywords. rewrite !elem_of_cons, elem_of_nil.
  intros H. repeat destruct H as [-> | H]; try contradiction;
    eexists _, _; split; reflexivity.
Qed.

Lemma wrapped_not_reserved (s : string) :
  PyStr.lower (dquote +:+ s +:+ dquote) ∉ reserved_keywords.
Proof.
  intros H. apply reserved_first_letter in H as (c & s' & Heq & Hc).
  simpl in Heq. injection Heq as <- _. discriminate Hc.
Qed.

(** ** The identifier sanitizer *)

(** C8. For every identifier, [get_safe_identifier] returns it between
    two double quotes exactly when its lowercased form is one of user,
    group, order, table, select, where, from, index, constraint, and
    returns it unchanged exactly when it is not. The function is total
    and has no other result. *)
Theorem get_safe_identifier_reserved (identifier : string) :
  let reserved : gset string :=
    {[ "user"; "group"; "order"; "table"; "select"; "where"; "from";
       "index"; "constraint" ]} in
  (get_safe_identifier identifier = dquote +:+ identifier +:+ dquote
   <-> PyStr.lower identifier ∈ reserved)
  /\ (get_safe_identifier identifier = identifier
      <-> PyStr.lower identifier ∉ reserved).
Proof.
  intros reserved.
  assert (Hset : PyStr.lower identifier ∈ reserved
                 <-> PyStr.lower identifier ∈ reserved_keywords).
  { unfold reserved, reserved_keywords.
    rewrite !elem_of_union, !elem_of_singleton, !elem_of_cons, elem_of_nil.
    tauto. }
  rewrite Hset. unfold get_safe_identifier.
  case_bool_decide as Hin; split; split; intros H; try done.
  - now apply wrapped_differs in H.
  - symmetry in H. now apply wrapped_differs in H.
Qed.

(** C10. The identifier sanitizer is idempotent: a second application
    leaves the result of the first unchanged. *)
Theorem get_safe_identifier_idempotent (s : string) :
  get_safe_identifier (get_safe_identifier s) = get_safe_identifier s.
Proof.
  destruct (decide (PyStr.lower s ∈ reserved_keywords)) as [Hin | Hin].
  - assert (Hs : get_safe_identifier s = dquote +:+ s +:+ dquote).
    { unfold get_safe_identifier. now rewrite bool_decide_eq_true_2. }
    rewrite Hs. unfold get_safe_identifier.
    rewrite bool_decide_eq_false_2; [reflexivity | apply wrapped_not_reserved].
  - assert (Hs : get_safe_identifier s = s).
    { unfold get_safe_identifier. now rewrite bool_decide_eq_false_2. }
    now rewrite !Hs.
Qed.

(** ** The type mapper *)

Lemma sqlite_to_pg_type_mapType (sqlite_type column_name : string) :
  sqlite_to_pg_type sqlite_type column_name = Spec.mapType unicode_upper sqlite_type column_name.
Proof.
  unfold sqlite_to_pg_type, Spec.mapType.
  destruct (String.eqb (PyStr.lower column_name) "scope"); [reflexivity |].
  cbv zeta. generalize (PyStr.upper unicode_upper sqlite_type) as t. intros t.
  unfold type_mapping.
  repeat
    match goal with
    | |- context [String.eqb t ?k] =>
        destruct (String.eqb_spec t k) as [-> | ?]; [vm_compute; reflexivity |]
    end.
  rewrite !lookup_insert_ne by congruence.
  now rewrite lookup_empty.
Qed.

(** C4. For every declared type and column name the type mapper returns
    the text-array type when the lowercased column name is scope,
    whatever the declared type; otherwise the image of the uppercased
    declared type in the fixed table (INTEGER, REAL, TEXT, BLOB, BOOLEAN,
    TIMESTAMP, JSON, VARCHAR(255)); and TEXT for a type that is not in
    the table. It is the ordered rule list of the specification, first
    match wins, and there is always a result. *)
Theorem sqlite_to_pg_type_rules (sqlite_type column_name : string) :
  sqlite_to_pg_type sqlite_type column_name = Spec.mapType unicode_upper sqlite_type column_name
  /\ (PyStr.lower column_name = "scope" ->
      sqlite_to_pg_type sqlite_type column_name = "TEXT[]")
  /\ (PyStr.lower column_name <> "scope" ->
      forall key image,
        (key, image) ∈ Spec.type_table -> PyStr.upper unicode_upper sqlite_type = key ->
        sqlite_to_pg_type sqlite_type column_name = image)
  /\ (PyStr.lower column_name <> "scope" ->
      PyStr.upper unicode_upper sqlite_type ∉ Spec.type_table.*1 ->
      sqlite_to_pg_type sqlite_type column_name = "TEXT").
Proof.
  split; [apply sqlite_to_pg_type_mapType |].
  unfold sqlite_to_pg_type. split; [| split].
  - intros ->. reflexivity.
  - intros Hname key image Hin Hkey.
    rewrite (proj2 (String.eqb_neq _ _) Hname). cbv zeta. rewrite Hkey.
    unfold Spec.type_table in Hin.
    rewrite !elem_of_cons, elem_of_nil in Hin.
    repeat destruct Hin as [[= -> ->] | Hin]; try contradiction;
      vm_compute; reflexivity.
  - intros Hname Hkey.
    rewrite (proj2 (String.eqb_neq _ _) Hname). cbv zeta.
    revert Hkey. generalize (PyStr.upper unicode_upper sqlite_type) as t. intros t Hkey.
    unfold Spec.type_table in Hkey. cbn [fmap list_fmap fst] in Hkey.
    rewrite !not_elem_of_cons in Hkey.
    unfold type_mapping.
    rewrite !lookup_insert_ne by (intros <-; tauto).
    now rewrite lookup_empty.
Qed.

(** ** The row translator *)

Lemma prefix_empty (s : string) : String.prefix EmptyString s = true.
Proof. now destruct s. Qed.

Lemma prefix_one (c d : ascii) (s : string) :
  String.prefix (String c EmptyString) (String d s) = Ascii.eqb d c.
Proof.
  simpl. destruct (ascii_dec c d) as [-> | Hne].
  - now rewrite prefix_empty, Ascii.eqb_refl.
  - symmetry. apply Ascii.eqb_neq. congruence.
Qed.

Lemma replace_single_quote (s : string) :
  PyStr.replace s (PyStr.chr 39) (PyStr.chr 39 +:+ PyStr.chr 39)
  = Spec.double_quotes s.
Proof.
  unfold PyStr.replace, PyStr.chr.
  induction s as [|c s IH]; [reflexivity |].
  unfold PyStr.replace_from; fold PyStr.replace_from.
  rewrite prefix_one. simpl Spec.double_quotes.
  unfold Spec.single_quote.
  destruct (Ascii.eqb c (ascii_of_N 39)).
  - simpl String.length. simpl Nat.sub. rewrite IH. reflexivity.
  - now rewrite IH.
Qed.

Lemma quoted_literal (s : string) : quoted s = Spec.literal s.
Proof. unfold quoted. now rewrite replace_single_quote. Qed.

Lemma double_quotes_plain (s : string) :
  Spec.occurs Spec.single_quote s = false -> Spec.double_quotes s = s.
Proof.
  induction s as [|c s IH]; [reflexivity |].
  cbn [Spec.occurs Spec.double_quotes].
  intros H. apply orb_false_iff in H as [Hc Hs].
  rewrite Ascii.eqb_sym, Hc. now rewrite IH.
Qed.

(** C1. For a column whose destination kind is neither boolean nor
    array and a value that is a string, the literal is the string with
    every single quote doubled, between two single quotes; a string
    with no single quote is emitted as it is between the quotes, so
    doubling is the only escaping. *)
Theorem text_literal_doubles_quotes
    (types : gmap string string) (name s : string) :
  types !! name <> Some "boolean" ->
  types !! name <> Some "ARRAY" ->
  translate_value types name (VStr s) = inr (Spec.literal s)
  /\ (Spec.occurs Spec.single_quote s = false ->
      translate_value types name (VStr s) = inr (squote +:+ s +:+ squote)).
Proof.
  intros Hbool Harray.
  assert (H : translate_value types name (VStr s) = inr (Spec.literal s)).
  { unfold translate_value.
    rewrite !bool_decide_eq_false_2 by assumption.
    unfold ret. now rewrite quoted_literal. }
  split; [exact H |].
  intros Hplain. rewrite H. unfold Spec.literal.
  now rewrite double_quotes_plain.
Qed.

(** C3. For a column whose destination kind is boolean and a value that
    is not NULL, the literal is true exactly when the value numerically
    equals 1, and false for every other value. *)
Theorem boolean_literal_is_equality_with_one
    (types : gmap string string) (name : string) (v : value) :
  types !! name = Some "boolean" ->
  v <> VNone ->
  (Spec.numerically_one v -> translate_value types name v = inr "true")
  /\ (~ Spec.numerically_one v -> translate_value types name v = inr "false").
Proof.
  intros Hbool Hnull.
  assert (H : translate_value types name v
              = inr (if eq_one v then "true" else "false")).
  { unfold translate_value. rewrite Hbool.
    destruct v; try reflexivity. now contradiction Hnull. }
  rewrite H. split.
  - intros [-> | (x & -> & Hx)]; simpl; [reflexivity | now rewrite Hx].
  - intros Hnot. destruct (eq_one v) eqn:Heq; [| reflexivity].
    exfalso. apply Hnot. destruct v; simpl in Heq; try discriminate.
    + left. f_equal. now apply Z.eqb_eq.
    + right. eauto.
Qed.

Lemma pieces_not_nil (s : string) : Spec.pieces s <> [].
Proof.
  induction s as [|c s IH]; [discriminate |].
  cbn [Spec.pieces]. destruct (Ascii.eqb c Spec.comma); [discriminate |].
  now destruct (Spec.pieces s).
Qed.

Lemma split_on_comma (s : string) : PyStr.split s "," = Some (Spec.pieces s).
Proof.
  unfold PyStr.split. f_equal.
  induction s as [|c s IH]; [reflexivity |].
  unfold PyStr.split_from; fold PyStr.split_from.
  rewrite prefix_one. cbn [Spec.pieces].
  change (Ascii.eqb c ",") with (Ascii.eqb c Spec.comma).
  destruct (Ascii.eqb c Spec.comma).
  - simpl String.length; simpl Nat.sub. now rewrite IH.
  - now rewrite IH.
Qed.

Lemma join_cons (sep p : string) (q : string) (ps : list string) :
  PyStr.join sep (p :: q :: ps) = p +:+ sep +:+ PyStr.join sep (q :: ps).
Proof. reflexivity. Qed.

Lemma join_pieces (s : string) : PyStr.join "," (Spec.pieces s) = s.
Proof.
  induction s as [|c s IH]; [reflexivity |].
  cbn [Spec.pieces].
  destruct (Ascii.eqb_spec c Spec.comma) as [-> | Hne].
  - pose proof (pieces_not_nil s) as Hnil.
    destruct (Spec.pieces s) as [|p ps]; [contradiction |].
    rewrite join_cons, IH. reflexivity.
  - pose proof (pieces_not_nil s) as Hnil.
    destruct (Spec.pieces s) as [|p ps]; [contradiction |].
    destruct ps as [|q ps].
    + cbn in IH |- *. now rewrite IH.
    + rewrite join_cons in IH |- *. rewrite append_cons. now rewrite IH.
Qed.

Lemma pieces_no_comma (s : string) :
  Forall (fun p => Spec.occurs Spec.comma p = false) (Spec.pieces s).
Proof.
  induction s as [|c s IH]; [repeat constructor |].
  cbn [Spec.pieces].
  destruct (Ascii.eqb_spec c Spec.comma) as [-> | Hne].
  - constructor; [reflexivity | exact IH].
  - destruct (Spec.pieces s) as [|p ps]; inversion IH; subst.
    + repeat constructor. cbn [Spec.occurs].
      rewrite orb_false_r. apply Ascii.eqb_neq. congruence.
    + constructor; [| assumption]. cbn [Spec.occurs].
      apply orb_false_iff. split; [| assumption].
      apply Ascii.eqb_neq. congruence.
Qed.

Lemma white_space_utf8 : PyStr.white_space = Spec.utf8 <$> Spec.white_space.
Proof. vm_compute. reflexivity. Qed.

Lemma utf8_not_empty (n : N) : exists c w, Spec.utf8 n = String c w.
Proof.
  unfold Spec.utf8.
  repeat match goal with
         | |- context [if ?b then _ else _] => destruct b
         end; eexists _, _; reflexivity.
Qed.

Lemma starts_split (w s : string) :
  PyStr.starts w s = true -> exists u, s = w +:+ u.
Proof.
  revert s. induction w as [|a w IH]; intros s; [now exists s |].
  destruct s as [|b s]; [discriminate |].
  cbn [PyStr.starts]. intros H. apply andb_true_iff in H as [Hab Hw].
  apply Ascii.eqb_eq in Hab as ->.
  destruct (IH s Hw) as [u ->]. now exists u.
Qed.

Lemma match_any_found (patterns : list string) (s : string) (k : nat) :
  PyStr.match_any patterns s = S k ->
  exists w u, w ∈ patterns /\ s = w +:+ u /\ String.length w = S k.
Proof.
  induction patterns as [|w ws IH]; [discriminate |].
  cbn [PyStr.match_any]. destruct (PyStr.starts w s) eqn:Hw.
  - intros Hlen. destruct (starts_split w s Hw) as [u ->].
    exists w, u. split; [apply elem_of_cons; now left | now split].
  - intros H. destruct (IH H) as (w' & u & Hin & Hs & Hlen).
    exists w', u. split; [apply elem_of_cons; now right | now split].
Qed.

Lemma space_len_utf8 (n : N) (u : string) :
  n ∈ Spec.white_space ->
  PyStr.space_len (Spec.utf8 n +:+ u) = String.length (Spec.utf8 n).
Proof.
  unfold Spec.white_space. rewrite !elem_of_cons, elem_of_nil.
  intros H. repeat destruct H as [-> | H]; try contradiction;
    vm_compute; reflexivity.
Qed.

Lemma space_len_found (s : string) (k : nat) :
  PyStr.space_len s = S k ->
  exists n u, n ∈ Spec.white_space /\ s = Spec.utf8 n +:+ u.
Proof.
  unfold PyStr.space_len. rewrite white_space_utf8. intros H.
  apply match_any_found in H as (w & u & Hin & -> & _).
  apply list_elem_of_fmap in Hin as (n & -> & Hn). now exists n, u.
Qed.

Lemma space_len_cases (s : string) :
  (PyStr.space_len s = O /\ ~ Spec.starts_with_space s)
  \/ Spec.starts_with_space s.
Proof.
  destruct (PyStr.space_len s) as [|k] eqn:E.
  - left. split; [reflexivity |]. intros (n & u & Hn & ->).
    rewrite space_len_utf8 in E by assumption.
    destruct (utf8_not_empty n) as (c & w & Hw). now rewrite Hw in E.
  - right. now apply space_len_found in E.
Qed.

Lemma space_len_step (n : N) (c : ascii) (w u : string) :
  n ∈ Spec.white_space -> Spec.utf8 n = String c w ->
  PyStr.space_len (String c (w +:+ u)) = S (String.length w).
Proof.
  intros Hn Hw. pose proof (space_len_utf8 n u Hn) as H.
  now rewrite Hw, append_cons in H.
Qed.

Lemma lstrip_from_skip (w u : string) :
  PyStr.lstrip_from (String.length w) (w +:+ u) = PyStr.lstrip_from 0 u.
Proof. induction w as [|c w IH]; [reflexivity | exact IH]. Qed.

Lemma lstrip_space (n : N) (u : string) :
  n ∈ Spec.white_space -> PyStr.lstrip (Spec.utf8 n +:+ u) = PyStr.lstrip u.
Proof.
  intros Hn. destruct (utf8_not_empty n) as (c & w & Hw).
  unfold PyStr.lstrip. rewrite Hw, append_cons. cbn [PyStr.lstrip_from].
  rewrite (space_len_step n c w u Hn Hw). apply lstrip_from_skip.
Qed.

Lemma lstrip_stop (s : string) : PyStr.space_len s = O -> PyStr.lstrip s = s.
Proof.
  intros H. destruct s as [|c s]; [reflexivity |].
  unfold PyStr.lstrip. cbn [PyStr.lstrip_from]. now rewrite H.
Qed.

Lemma all_space_from_skip (w u : string) :
  PyStr.all_space_from (String.length w) (w +:+ u) = PyStr.all_space_from 0 u.
Proof. induction w as [|c w IH]; [reflexivity | exact IH]. Qed.

Lemma all_space_space (n : N) (u : string) :
  n ∈ Spec.white_space ->
  PyStr.all_space (Spec.utf8 n +:+ u) = PyStr.all_space u.
Proof.
  intros Hn. destruct (utf8_not_empty n) as (c & w & Hw).
  unfold PyStr.all_space. rewrite Hw, append_cons. cbn [PyStr.all_space_from].
  rewrite (space_len_step n c w u Hn Hw). apply all_space_from_skip.
Qed.

Lemma all_space_stop (c : ascii) (s : string) :
  PyStr.space_len (String c s) = O -> PyStr.all_space (String c s) = false.
Proof.
  intros H. unfold PyStr.all_space. cbn [PyStr.all_space_from]. now rewrite H.
Qed.

Lemma shorter_after_space (n : N) (u : string) :
  (String.length u < String.length (Spec.utf8 n +:+ u))%nat.
Proof.
  destruct (utf8_not_empty n) as (c & w & ->).
  rewrite length_append. cbn [String.length]. lia.
Qed.

Lemma lstrip_splits (s : string) :
  exists l, s = l +:+ PyStr.lstrip s /\ Spec.white l.
Proof.
  remember (String.length s) as m eqn:Hm. revert s Hm.
  induction m as [m IH] using lt_wf_ind. intros s ->.
  destruct (space_len_cases s) as [[E _] | (n & u & Hn & ->)].
  - exists EmptyString. rewrite lstrip_stop by assumption.
    split; [reflexivity | constructor].
  - rewrite lstrip_space by assumption.
    destruct (IH _ (shorter_after_space n u) u eq_refl) as (l & Hu & Hl).
    exists (Spec.utf8 n +:+ l). rewrite append_assoc, <- Hu.
    split; [reflexivity | now constructor].
Qed.

Lemma lstrip_first (s : string) : ~ Spec.starts_with_space (PyStr.lstrip s).
Proof.
  remember (String.length s) as m eqn:Hm. revert s Hm.
  induction m as [m IH] using lt_wf_ind. intros s ->.
  destruct (space_len_cases s) as [[E Hs] | (n & u & Hn & ->)].
  - now rewrite lstrip_stop.
  - rewrite lstrip_space by assumption.
    exact (IH _ (shorter_after_space n u) u eq_refl).
Qed.

Lemma all_space_white (s : string) : PyStr.all_space s = true <-> Spec.white s.
Proof.
  split.
  - remember (String.length s) as m eqn:Hm. revert s Hm.
    induction m as [m IH] using lt_wf_ind. intros s ->.
    destruct (space_len_cases s) as [[E _] | (n & u & Hn & ->)].
    + destruct s as [|c s]; [constructor |].
      rewrite all_space_stop by assumption. discriminate.
    + rewrite all_space_space by assumption. intros Hu.
      constructor; [assumption |].
      exact (IH _ (shorter_after_space n u) u eq_refl Hu).
  - induction 1 as [|n u Hn _ IH]; [reflexivity |].
    now rewrite all_space_space.
Qed.

Lemma rstrip_splits (s : string) :
  exists r, s = PyStr.rstrip s +:+ r /\ Spec.white r.
Proof.
  induction s as [|c s (r & Hs & Hr)];
    [exists EmptyString; split; [reflexivity | constructor] |].
  cbn [PyStr.rstrip]. destruct (PyStr.all_space (String c s)) eqn:E.
  - exists (String c s). split; [reflexivity | now apply all_space_white].
  - exists r. rewrite append_cons, <- Hs. now split.
Qed.

Lemma rstrip_no_space_end (s u : string) (n : N) :
  n ∈ Spec.white_space -> PyStr.rstrip s <> u +:+ Spec.utf8 n.
Proof.
  intros Hn. revert u.
  assert (Hne : forall u, EmptyString <> u +:+ Spec.utf8 n).
  { intros u H. apply (f_equal String.length) in H.
    rewrite length_append in H.
    destruct (utf8_not_empty n) as (c & w & Hw). rewrite Hw in H.
    cbn [String.length] in H. lia. }
  induction s as [|c s IH]; intros u; [apply Hne |].
  cbn [PyStr.rstrip]. destruct (PyStr.all_space (String c s)) eqn:E; [apply Hne |].
  destruct u as [|d u].
  - rewrite append_nil. intros H.
    destruct (rstrip_splits (String c s)) as (r & Hs & Hr).
    cbn [PyStr.rstrip] in Hs. rewrite E, H in Hs.
    assert (Hw : Spec.white (String c s)) by (rewrite Hs; now constructor).
    apply all_space_white in Hw. congruence.
  - rewrite append_cons. intros [= _ H]. exact (IH u H).
Qed.

Lemma rstrip_last (s : string) : ~ Spec.ends_with_space (PyStr.rstrip s).
Proof. intros (n & u & Hn & H). exact (rstrip_no_space_end s u n Hn H). Qed.

Lemma rstrip_first (s : string) :
  ~ Spec.starts_with_space s -> ~ Spec.starts_with_space (PyStr.rstrip s).
Proof.
  intros Hs (n & u & Hn & H). apply Hs.
  destruct (rstrip_splits s) as (r & Hr & _).
  exists n, (u +:+ r). split; [assumption |].
  rewrite <- append_assoc, <- H. exact Hr.
Qed.

Lemma strip_trimmed (s : string) : Spec.trimmed s (PyStr.strip s).
Proof.
  unfold Spec.trimmed, PyStr.strip.
  destruct (lstrip_splits s) as (l & Hs & Hl).
  destruct (rstrip_splits (PyStr.lstrip s)) as (r & Ht & Hr).
  split; [| split].
  - exists l, r. split; [| now split]. now rewrite <- Ht.
  - apply rstrip_first, lstrip_first.
  - apply rstrip_last.
Qed.

(** C2 (as amended). For a column whose destination kind is array: a
    NULL value, and every value that Python takes for false (the empty
    string, 0, 0.0, empty bytes), gives the literal NULL; a string that
    is not empty is cut at its commas, every piece is trimmed of the
    white space around it, its single quotes are doubled, it is put
    between single quotes, and the literal is ARRAY[...] with the pieces
    in their order, joined by commas; any other value has no [split] for
    a string and raises. *)
Theorem array_literal_from_pieces (types : gmap string string) (name : string) :
  types !! name = Some "ARRAY" ->
  translate_value types name VNone = inr "NULL"
  /\ translate_value types name (VStr EmptyString) = inr "NULL"
  /\ (forall s, s <> EmptyString ->
       translate_value types name (VStr s)
       = inr ("ARRAY["
              +:+ PyStr.join "," (map (fun p => Spec.literal (PyStr.strip p)) (Spec.pieces s))
              +:+ "]")
       /\ PyStr.join "," (Spec.pieces s) = s
       /\ Forall (fun p => Spec.occurs Spec.comma p = false) (Spec.pieces s)
       /\ Forall (fun p => Spec.trimmed p (PyStr.strip p)) (Spec.pieces s))
  /\ (forall v, truthy v = false -> translate_value types name v = inr "NULL")
  /\ (forall v, truthy v = true -> (forall s, v <> VStr s) ->
        translate_value types name v
        = inl (match v with VBytes _ => TypeError | _ => AttributeError end)).
Proof.
  intros Harray.
  assert (Hbranch : forall v, v <> VNone ->
            translate_value types name v
            = if negb (truthy v) then ret "NULL"
              else let* pieces := value_split v "," in
                   ret ("ARRAY["
                        +:+ PyStr.join "," (map (fun p => quoted (PyStr.strip p)) pieces)
                        +:+ "]")).
  { intros v Hv. unfold translate_value. rewrite Harray.
    rewrite bool_decide_eq_false_2 by discriminate.
    rewrite bool_decide_eq_true_2 by reflexivity.
    destruct v; [contradiction | reflexivity..]. }
  split; [reflexivity |]. split; [now rewrite Hbranch |].
  split; [| split].
  - intros s Hs. split; [| split; [apply join_pieces | split]].
    + rewrite Hbranch by discriminate.
      destruct s as [|c s']; [contradiction |].
      cbn [truthy String.eqb negb].
      unfold value_split. rewrite split_on_comma. unfold ret, bind.
      do 4 f_equal. apply map_ext. intros p. apply quoted_literal.
    + apply pieces_no_comma.
    + apply Forall_forall. intros p _. apply strip_trimmed.
  - intros v Hfalse. destruct v; [reflexivity | ..];
      rewrite Hbranch by discriminate; now rewrite Hfalse.
  - intros v Htrue Hstr.
    destruct v as [|n|x|s|b]; [discriminate Htrue | ..];
      rewrite Hbranch by discriminate; rewrite Htrue;
      try reflexivity.
    now contradiction (Hstr s).
Qed.

Lemma translate_value_returns
    (types : gmap string string) (name : string) (v : value) :
  (exists literal, translate_value types name v = inr literal)
  <-> (types !! name = Some "ARRAY" -> truthy v = true -> exists s, v = VStr s).
Proof.
  unfold translate_value.
  destruct (decide (types !! name = Some "boolean")) as [Hb | Hb].
  { rewrite Hb. split.
    - intros _ Ha. discriminate Ha.
    - intros _. destruct v; eexists; reflexivity. }
  rewrite (bool_decide_eq_false_2 _ Hb).
  destruct (decide (types !! name = Some "ARRAY")) as [Ha | Ha].
  - rewrite (bool_decide_eq_true_2 _ Ha).
    destruct v as [|n|x|s|b]; cbn [value_split bind raise];
      [split; [discriminate | eauto] | ..];
      match goal with
      | |- context [truthy ?v] => destruct (truthy v)
      end; cbn [negb]; split;
      try (intros _ _ H; discriminate H);
      try (intros [? H]; discriminate H);
      try (intros _; eexists; reflexivity);
      try (intros H; destruct (H Ha eq_refl) as [? ?]; discriminate).
  - rewrite (bool_decide_eq_false_2 _ Ha). split; [contradiction |].
    intros _. destruct v; eexists; reflexivity.
Qed.

Lemma translate_pairs_each
    (types : gmap string string) (pairs : list (string * value))
    (literals : list string) :
  translate_pairs types pairs = inr literals ->
  Forall2 (fun p literal => translate_value types p.1 p.2 = inr literal)
          pairs literals.
Proof.
  revert literals. induction pairs as [|[name v] rest IH]; intros literals.
  - intros [= <-]. constructor.
  - cbn [translate_pairs]. unfold bind at 1.
    destruct (translate_value types name v) as [e | literal] eqn:Hv;
      [discriminate |].
    unfold bind.
    destruct (translate_pairs types rest) as [e | ls]; [discriminate |].
    intros [= <-]. constructor; [exact Hv | now apply IH].
Qed.

Lemma translate_pairs_returns
    (types : gmap string string) (pairs : list (string * value)) :
  (exists literals, translate_pairs types pairs = inr literals)
  <-> Forall (fun p => exists literal, translate_value types p.1 p.2 = inr literal)
             pairs.
Proof.
  induction pairs as [|[name v] rest IH].
  - split; [constructor | intros _; now exists []].
  - cbn [translate_pairs]. unfold bind. split.
    + intros [literals H].
      destruct (translate_value types name v) as [e | literal] eqn:Hv;
        [discriminate |].
      destruct (translate_pairs types rest) as [e | ls]; [discriminate |].
      constructor; [now exists literal | apply IH; now exists ls].
    + intros H. inversion H as [|? ? [literal Hv] Hrest]; subst.
      apply IH in Hrest as [ls Hls]. cbn [fst snd] in Hv.
      rewrite Hv, Hls. now eexists.
Qed.

(** C9 (as amended). For every row whose names and values have the same
    length and every column-type mapping: when the row translator
    returns, its output has exactly one literal for every column, the
    literal of that column's value, in the order of the columns; and it
    returns exactly when no array column holds a value that is true in
    Python without being a string. *)
Theorem translate_row_one_literal_per_column
    (types : gmap string string) (names : list string) (row : list value) :
  length names = length row ->
  (forall literals, translate_row types names row = inr literals ->
     length literals = length names
     /\ forall i name v, names !! i = Some name -> row !! i = Some v ->
          exists literal, literals !! i = Some literal
                          /\ translate_value types name v = inr literal)
  /\ ((exists literals, translate_row types names row = inr literals)
      <-> forall i name v, names !! i = Some name -> row !! i = Some v ->
            types !! name = Some "ARRAY" -> truthy v = true ->
            exists s, v = VStr s).
Proof.
  intros Hlen. unfold translate_row. split.
  - intros literals H. apply translate_pairs_each in H.
    pose proof (Forall2_length _ _ _ H) as Hl.
    rewrite length_zip_with_l_eq in Hl by exact Hlen.
    split; [now symmetry |].
    intros i name v Hn Hv.
    assert (Hz : zip names row !! i = Some (name, v)).
    { apply lookup_zip_Some. now split. }
    destruct (Forall2_lookup_l _ _ _ _ _ H Hz) as (literal & Hlit & Hval).
    now exists literal.
  - rewrite translate_pairs_returns, Forall_lookup. split.
    + intros H i name v Hn Hv.
      assert (Hz : zip names row !! i = Some (name, v)).
      { apply lookup_zip_Some. now split. }
      apply (translate_value_returns types name v), (H i (name, v) Hz).
    + intros H i [name v] Hz. apply lookup_zip_Some in Hz as [Hn Hv].
      apply translate_value_returns. now apply (H i).
Qed.

(** ** The planner and the loop over the tables *)

Lemma excluded_names (name : string) :
  bool_decide (name ∈ ["migratehistory"; "alembic_version"])
  = bool_decide (name ∈ exclusion_set).
Proof.
  apply bool_decide_ext. unfold exclusion_set.
  rewrite elem_of_union, !elem_of_singleton, !elem_of_cons, elem_of_nil.
  tauto.
Qed.

(** C5. For every table name, destination existence and destination
    row count the planner yields Skip when the name is migratehistory
    or alembic_version, whatever the destination; otherwise Skip when
    the table exists with a positive row count; otherwise
    MigrateIntoExisting when it exists; otherwise CreateAndMigrate. The
    loop of [migrate] does for every table what this decision says. *)
Theorem planner_decides_in_order (src : source_table) (dest : dest_answers) :
  let tableName := table_name src in
  let destExists := table_exists dest in
  let destRowCount := row_count dest in
  let d := plan tableName destExists destRowCount in
  migrate_table src dest = carry_out d src dest
  /\ (tableName ∈ exclusion_set -> d = Skip "migration bookkeeping table")
  /\ (tableName ∉ exclusion_set -> destExists = true -> destRowCount > 0 ->
      d = Skip "destination already populated")
  /\ (tableName ∉ exclusion_set -> destExists = true -> destRowCount <= 0 ->
      d = MigrateIntoExisting)
  /\ (tableName ∉ exclusion_set -> destExists = false -> d = CreateAndMigrate).
Proof.
  intros tableName destExists destRowCount d.
  subst d tableName destExists destRowCount. unfold plan.
  split; [| repeat split].
  - unfold migrate_table, carry_out. rewrite excluded_names.
    destruct (migrate_rows _ _ _ _) as [inserted [e |]];
      destruct (bool_decide _); try reflexivity;
      destruct (table_exists dest); cbn [andb negb];
      try destruct (row_count dest >? 0); try reflexivity;
      cbn [app]; now rewrite ?app_nil_r.
  - intros Hin. now rewrite bool_decide_eq_true_2.
  - intros Hout -> Hpos. rewrite bool_decide_eq_false_2 by assumption.
    cbn [andb]. now rewrite (proj2 (Z.gtb_gt _ _) Hpos).
  - intros Hout -> Hzero. rewrite bool_decide_eq_false_2 by assumption.
    cbn [andb]. destruct (Z.gtb_spec (row_count dest) 0); [lia | reflexivity].
  - intros Hout ->. now rewrite bool_decide_eq_false_2.
Qed.

Lemma populated_table_skipped (src : source_table) (dest : dest_answers) :
  table_exists dest = true -> row_count dest > 0 ->
  migrate_table src dest = ([], None).
Proof.
  intros Hex Hpos. unfold migrate_table.
  rewrite Hex, (proj2 (Z.gtb_gt _ _) Hpos).
  now destruct (bool_decide _).
Qed.

Lemma migrate_loop_entry
    (tables : list (source_table * dest_answers)) (i : nat)
    (entry : string * list pg_action) :
  (migrate_loop tables).1 !! i = Some entry ->
  exists src dest, tables !! i = Some (src, dest)
                   /\ entry = (table_name src, (migrate_table src dest).1).
Proof.
  revert i. induction tables as [|[src dest] rest IH]; intros i.
  - intros H. discriminate H.
  - cbn [migrate_loop].
    destruct (migrate_table src dest) as [actions [e |]] eqn:Ht.
    + destruct i as [|i]; cbn; [| intros H; discriminate H].
      intros [= <-]. exists src, dest. now rewrite Ht.
    + destruct (migrate_loop rest) as [log raised]. cbn [fst] in IH |- *.
      destruct i as [|i]; cbn.
      * intros [= <-]. exists src, dest. now rewrite Ht.
      * intros H. now apply IH.
Qed.

(** C6. A table that exists at the destination with a positive row
    count is not migrated: its turn of the loop sends the destination
    nothing, and in the log of any run its entry holds no action, so no
    create-table and no insert statement. *)
Theorem populated_table_never_written
    (src : source_table) (dest : dest_answers) :
  table_exists dest = true ->
  row_count dest > 0 ->
  migrate_table src dest = ([], None)
  /\ forall tables i entry,
       tables !! i = Some (src, dest) ->
       (migrate tables).1.1 !! i = Some entry ->
       entry = (table_name src, []).
Proof.
  intros Hex Hpos. split; [now apply populated_table_skipped |].
  intros tables i entry Hi Hentry.
  assert (Hlog : (migrate tables).1.1 = (migrate_loop tables).1).
  { unfold migrate. now destruct (migrate_loop tables) as [log [e |]]. }
  rewrite Hlog in Hentry.
  apply migrate_loop_entry in Hentry as (src' & dest' & Hi' & ->).
  rewrite Hi in Hi'. injection Hi' as <- <-.
  now rewrite populated_table_skipped.
Qed.

(** C7. In the end-to-end scenario (table orders absent at the
    destination) the script sends a create-table statement that maps
    scope to TEXT[], then one insert, then commits; the insert carries
    the scope value as the plain string 'read,write', not as
    ARRAY['read','write']: the column types were read before the table
    was created, so the row translator sees no array column. *)
Theorem orders_scenario_inserts_plain_string :
  migrate_table orders_table absent_at_destination
  = ([Execute "CREATE TABLE IF NOT EXISTS orders (id INTEGER, name TEXT, scope TEXT[])";
      Execute "INSERT INTO orders (id, name, scope) VALUES (1, 'A''s', 'read,write')";
      Commit],
     None)
  /\ translate_row (pg_column_types (pg_columns absent_at_destination))
       (column_names orders_table) [VInt 1; VStr "A's"; VStr "read,write"]
     <> inr ["1"; "'A''s'"; "ARRAY['read','write']"].
Proof. split; [vm_compute; reflexivity | vm_compute; discriminate]. Qed.

(** The same table, present and empty at the destination with [scope]
    a text array: no create-table statement and the array literal. *)
Lemma orders_into_existing_table :
  migrate_table orders_table empty_at_destination
  = ([Execute "INSERT INTO orders (id, name, scope) VALUES (1, 'A''s', ARRAY['read','write'])";
      Commit],
     None).
Proof. vm_compute. reflexivity. Qed.

(** ** Further properties: the sanitizer and the type mapper *)

(** X1. The type mapper returns one of nine destination types and
    nothing else, whatever the declared type and the column name. *)
Theorem sqlite_to_pg_type_range (sqlite_type column_name : string) :
  sqlite_to_pg_type sqlite_type column_name
  ∈ ["TEXT[]"; "INTEGER"; "DOUBLE PRECISION"; "TEXT"; "BYTEA"; "BOOLEAN";
     "TIMESTAMP"; "JSONB"; "VARCHAR(255)"].
Proof.
  rewrite sqlite_to_pg_type_mapType. unfold Spec.mapType.
  rewrite !elem_of_cons.
  repeat match goal with
         | |- context [if ?b then _ else _] => destruct b
         end; tauto.
Qed.

(** X2. What the identifier sanitizer returns is never a bare reserved
    word: its lowercased form is outside the reserved list. *)
Theorem safe_identifier_never_reserved (identifier : string) :
  PyStr.lower (get_safe_identifier identifier) ∉ reserved_keywords.
Proof.
  unfold get_safe_identifier. case_bool_decide as Hin.
  - apply wrapped_not_reserved.
  - exact Hin.
Qed.

(** ** Further properties: the literals *)

Lemma read_body_double_quotes (s rest : string) :
  Spec.first_char rest <> Some Spec.single_quote ->
  Sql.read_body (Spec.double_quotes s +:+ String Spec.single_quote rest)
  = Some (s, rest).
Proof.
  intros Hrest. induction s as [|c s IH].
  - rewrite append_nil. cbn [Sql.read_body]. rewrite Ascii.eqb_refl.
    destruct rest as [|d rest']; [reflexivity |].
    destruct (Ascii.eqb_spec d Spec.single_quote) as [-> | Hd]; [| reflexivity].
    now contradiction Hrest.
  - cbn [Spec.double_quotes].
    destruct (Ascii.eqb_spec c Spec.single_quote) as [-> | Hc].
    + rewrite !append_cons. cbn [Sql.read_body].
      rewrite Ascii.eqb_refl. now rewrite IH.
    + rewrite append_cons. cbn [Sql.read_body].
      rewrite (proj2 (Ascii.eqb_neq _ _) Hc). now rewrite IH.
Qed.

Lemma read_literal_literal (s rest : string) :
  Spec.first_char rest <> Some Spec.single_quote ->
  Sql.read_literal (Spec.literal s +:+ rest) = Some (s, rest).
Proof.
  intros Hrest. unfold Spec.literal. rewrite append_cons.
  cbn [Sql.read_literal]. rewrite Ascii.eqb_refl.
  rewrite append_assoc, append_cons, append_nil.
  now apply read_body_double_quotes.
Qed.

(** X3. A quoted string reads back: a reader of SQL string constants
    that meets the literal of [s], followed by any text that does not
    start with a single quote, reads exactly [s] and stops exactly at
    the end of the literal. *)
Theorem quoted_reads_back (s rest : string) :
  Spec.first_char rest <> Some Spec.single_quote ->
  Sql.read_literal (quoted s +:+ rest) = Some (s, rest).
Proof.
  intros Hrest. rewrite quoted_literal. now apply read_literal_literal.
Qed.

(** X4. Two different strings never get the same quoted literal. *)
Theorem quoted_injective (s t : string) : quoted s = quoted t -> s = t.
Proof.
  intros H.
  assert (Hs : Sql.read_literal (Spec.literal s +:+ EmptyString) = Some (s, EmptyString))
    by (apply read_literal_literal; discriminate).
  assert (Ht : Sql.read_literal (Spec.literal t +:+ EmptyString) = Some (t, EmptyString))
    by (apply read_literal_literal; discriminate).
  rewrite !quoted_literal in H. rewrite H, Ht in Hs. now injection Hs.
Qed.

Lemma pieces_length (s : string) :
  length (Spec.pieces s) = S (Sql.count Spec.comma s).
Proof.
  induction s as [|c s IH]; [reflexivity |].
  cbn [Spec.pieces Sql.count]. rewrite (Ascii.eqb_sym Spec.comma c).
  destruct (Ascii.eqb c Spec.comma).
  - cbn [length]. now rewrite IH.
  - destruct (Spec.pieces s) as [|p ps]; [discriminate IH |].
    cbn [length] in IH |- *. exact IH.
Qed.

(** X5. The array literal of a string that is not empty has one element
    more than the string has commas: two commas in a row and a comma at
    either end give empty elements, and a string without a comma, even
    one of white space only, gives one element. *)
Theorem array_elements_count
    (types : gmap string string) (name s : string) :
  types !! name = Some "ARRAY" ->
  s <> EmptyString ->
  exists elements,
    value_split (VStr s) "," = inr elements
    /\ length elements = S (Sql.count Spec.comma s)
    /\ translate_value types name (VStr s)
       = inr ("ARRAY["
              +:+ PyStr.join "," (map (fun p => quoted (PyStr.strip p)) elements)
              +:+ "]").
Proof.
  intros Harray Hs. exists (Spec.pieces s). split; [| split].
  - cbn [value_split]. now rewrite split_on_comma.
  - apply pieces_length.
  - unfold translate_value. rewrite Harray.
    rewrite bool_decide_eq_false_2 by discriminate.
    rewrite bool_decide_eq_true_2 by reflexivity.
    destruct s as [|c s']; [contradiction |].
    cbn [truthy String.eqb negb].
    unfold value_split. rewrite split_on_comma. reflexivity.
Qed.

Lemma read_int_of_int (n : Z) : Sql.read_int (PyStr.of_int n) = Some n.
Proof.
  unfold Sql.read_int, PyStr.of_int.
  rewrite NilZero.isi.
  - cbn [option_map]. now rewrite DecimalZ.of_to.
  - destruct n; cbn; try discriminate.
    intros [= H]. now apply DecimalPos.Unsigned.to_uint_nonnil in H.
  - destruct n; cbn; try discriminate.
    intros [= H]. now apply DecimalPos.Unsigned.to_uint_nonnil in H.
Qed.

(** X6. The literal of an integer, in a column whose kind is neither
    boolean nor array, is its decimal form: read back as a decimal
    integer it gives the same integer. *)
Theorem integer_literal_reads_back
    (types : gmap string string) (name : string) (n : Z) :
  types !! name <> Some "boolean" ->
  types !! name <> Some "ARRAY" ->
  exists literal,
    translate_value types name (VInt n) = inr literal
    /\ Sql.read_int literal = Some n.
Proof.
  intros Hbool Harray. exists (PyStr.of_int n). split.
  - unfold translate_value. now rewrite !bool_decide_eq_false_2 by assumption.
  - apply read_int_of_int.
Qed.

(** ** Further properties: the column types and the row translator *)

Lemma pg_column_types_snoc (cols : list pg_column) (col : pg_column) :
  pg_column_types (cols ++ [col])
  = <[column_name col := column_kind col]> (pg_column_types cols).
Proof. unfold pg_column_types. now rewrite fold_left_app. Qed.

Lemma pg_column_types_none (cols : list pg_column) (name : string) :
  pg_column_types cols !! name = None <-> name ∉ column_name <$> cols.
Proof.
  induction cols as [|col cols IH] using rev_ind.
  - split; [intros _ H; now apply elem_of_nil in H | reflexivity].
  - rewrite pg_column_types_snoc, fmap_app, not_elem_of_app.
    cbn [fmap list_fmap]. rewrite not_elem_of_cons.
    destruct (decide (column_name col = name)) as [<- | Hne].
    + rewrite lookup_insert_eq. split; [discriminate | tauto].
    + rewrite lookup_insert_ne by assumption. rewrite IH. split.
      * intros H. repeat split; [assumption | congruence |].
        intros H'. now apply elem_of_nil in H'.
      * tauto.
Qed.

Lemma pg_column_types_later (cols later : list pg_column) (name : string) :
  name ∉ column_name <$> later ->
  pg_column_types (cols ++ later) !! name = pg_column_types cols !! name.
Proof.
  induction later as [|col later IH] using rev_ind.
  - now rewrite app_nil_r.
  - rewrite fmap_app, not_elem_of_app. cbn [fmap list_fmap].
    rewrite not_elem_of_cons. intros (Hlater & Hcol & _).
    rewrite app_assoc, pg_column_types_snoc.
    rewrite lookup_insert_ne by congruence. now apply IH.
Qed.

(** X7. The dictionary of column types answers [None] exactly for the
    names the column query did not return, and for a returned name the
    kind of the last row that carries it: ARRAY when the underlying type
    name of that row starts with an underscore, its data type otherwise. *)
Theorem column_types_lookup (cols : list pg_column) (name : string) :
  (pg_column_types cols !! name = None <-> name ∉ column_name <$> cols)
  /\ forall before col later,
       cols = (before ++ col :: later)%list ->
       column_name col = name ->
       name ∉ column_name <$> later ->
       pg_column_types cols !! name = Some (column_kind col).
Proof.
  split; [apply pg_column_types_none |].
  intros before col later -> <- Hlater.
  change (before ++ col :: later)%list with (before ++ [col] ++ later)%list.
  rewrite app_assoc, pg_column_types_later by assumption.
  now rewrite pg_column_types_snoc, lookup_insert_eq.
Qed.

Lemma translate_value_plain
    (types : gmap string string) (name : string) (v : value) :
  types !! name = None ->
  translate_value types name v = inr (plain_literal v).
Proof.
  intros Hnone. unfold translate_value. rewrite Hnone.
  rewrite !bool_decide_eq_false_2 by discriminate.
  destruct v; try reflexivity.
  unfold ret, plain_literal. now rewrite quoted_literal.
Qed.

(** X8. When the column query returned none of the columns of a row (as
    for a table that the destination does not have yet), translating the
    row never raises and gives every value its plain literal: NULL, the
    quoted string, or the text of the number or bytes; no value is
    written as a boolean or as an array. *)
Theorem unlisted_columns_plain
    (cols : list pg_column) (names : list string) (row : list value) :
  (forall name, name ∈ names -> name ∉ column_name <$> cols) ->
  translate_row (pg_column_types cols) names row
  = inr (zip_with (fun _ v => plain_literal v) names row).
Proof.
  unfold translate_row. revert row.
  induction names as [|name names IH]; intros row Hnames; [reflexivity |].
  destruct row as [|v row]; [reflexivity |].
  cbn [zip_with translate_pairs].
  rewrite translate_value_plain
    by (apply pg_column_types_none, Hnames, elem_of_cons; now left).
  unfold bind at 1. rewrite IH; [reflexivity |].
  intros n Hn. apply Hnames, elem_of_cons. now right.
Qed.

Lemma array_literal_null_when_false
    (types : gmap string string) (name : string) (v : value) :
  types !! name = Some "ARRAY" -> truthy v = false ->
  translate_value types name v = inr "NULL".
Proof.
  intros Harray Hfalse. unfold translate_value. rewrite Harray, Hfalse.
  rewrite bool_decide_eq_false_2 by discriminate.
  rewrite bool_decide_eq_true_2 by reflexivity.
  now destruct v.
Qed.

(** X9. In a column whose kind is array a value that Python takes for
    false (0, 0.0, empty bytes, the empty string) gives NULL; a value
    taken for true that is not a string raises: [TypeError] for bytes,
    [AttributeError] for a number. *)
Theorem array_column_other_values
    (types : gmap string string) (name : string) (v : value) :
  types !! name = Some "ARRAY" ->
  (truthy v = false -> translate_value types name v = inr "NULL")
  /\ (truthy v = true -> (forall s, v <> VStr s) ->
      translate_value types name v
      = inl (match v with VBytes _ => TypeError | _ => AttributeError end)).
Proof.
  intros Harray. unfold translate_value. rewrite Harray.
  rewrite bool_decide_eq_false_2 by discriminate.
  rewrite bool_decide_eq_true_2 by reflexivity.
  split.
  - intros Hfalse. rewrite Hfalse. now destruct v.
  - intros Htrue Hstr. rewrite Htrue.
    destruct v as [|n|x|s|b]; try reflexivity.
    + discriminate Htrue.
    + now contradiction (Hstr s).
Qed.

(** X10. The loop over [zip(column_names, row)] stops at the end of the
    shorter list: the output has as many literals as the shorter of the
    names and the values. *)
Theorem translate_row_truncates
    (types : gmap string string) (names : list string) (row : list value)
    (literals : list string) :
  translate_row types names row = inr literals ->
  length literals = (length names `min` length row)%nat.
Proof.
  intros H. apply translate_pairs_each in H.
  apply Forall2_length in H. rewrite <- H. apply length_zip_with.
Qed.

Lemma null_literal_of_value
    (types : gmap string string) (name : string) (v : value) :
  v <> VNone ->
  (forall x, v <> VFloat x) ->
  translate_value types name v = inr "NULL"
  <-> types !! name = Some "ARRAY" /\ truthy v = false.
Proof.
  intros Hnone Hfloat.
  destruct (decide (types !! name = Some "boolean")) as [Hb | Hb].
  { assert (H : translate_value types name v
                = inr (if eq_one v then "true" else "false")).
    { unfold translate_value. rewrite Hb. now destruct v. }
    rewrite H. split.
    - destruct (eq_one v); discriminate.
    - intros [Ha _]. congruence. }
  destruct (decide (types !! name = Some "ARRAY")) as [Ha | Ha].
  - destruct (truthy v) eqn:Ht.
    + split; [| intros [_ H]; discriminate H].
      unfold translate_value. rewrite Ha, Ht.
      rewrite bool_decide_eq_false_2 by discriminate.
      rewrite bool_decide_eq_true_2 by reflexivity.
      destruct v as [|n|x|s|b]; discriminate.
    + split; [intros _; now split |]. intros _.
      now apply array_literal_null_when_false.
  - split; [| intros [H _]; contradiction].
    unfold translate_value.
    rewrite !bool_decide_eq_false_2 by assumption.
    destruct v as [|n|x|s|b].
    + contradiction.
    + intros [= H]. pose proof (read_int_of_int n) as Hn.
      cbn [str] in H. rewrite H in Hn. discriminate Hn.
    + now contradiction (Hfloat x).
    + discriminate.
    + discriminate.
Qed.

(** X11. Apart from floats, the bare literal NULL is written only for a
    NULL value, or in an array column for a value that Python takes for
    false; a string spelled NULL is always quoted, and no integer or
    bytes value renders as NULL. *)
Theorem null_literal_only_for_null
    (types : gmap string string) (name : string) (v : value) :
  (forall x, v <> VFloat x) ->
  translate_value types name v = inr "NULL"
  <-> v = VNone \/ (types !! name = Some "ARRAY" /\ truthy v = false).
Proof.
  intros Hfloat.
  destruct v as [|n|x|s|b]; [split; [now left | reflexivity] | ..];
    (rewrite null_literal_of_value by (assumption || discriminate);
     split; [now right | intros [H | H]; [discriminate H | exact H]]).
Qed.

(** ** Further properties: the loops over the rows and the tables *)





Lemma left_alone_skipped (src : source_table) (dest : dest_answers) :
  left_alone (src, dest) -> migrate_table src dest = ([], None).
Proof.
  intros [Hin | [Hex Hpos]].
  - unfold migrate_table. rewrite excluded_names.
    cbn [fst] in Hin. now rewrite bool_decide_eq_true_2.
  - now apply populated_table_skipped.
Qed.


Lemma migrate_loop_quiet (tables : list (source_table * dest_answers)) :
  Forall (fun t => (migrate_table t.1 t.2).2 = None) tables ->
  migrate_loop tables = (table_report <$> tables, None).
Proof.
  induction 1 as [|[src dest] tables Ht _ IH]; [reflexivity |].
  cbn [migrate_loop fmap list_fmap]. unfold table_report at 1. cbn [fst snd] in *.
  destruct (migrate_table src dest) as [actions raised].
  cbn [snd] in Ht. subst raised. now rewrite IH.
Qed.

Lemma migrate_loop_failure
    (before : list (source_table * dest_answers))
    (t : source_table * dest_answers)
    (after : list (source_table * dest_answers)) (e : exn) :
  Forall (fun t => (migrate_table t.1 t.2).2 = None) before ->
  (migrate_table t.1 t.2).2 = Some e ->
  migrate_loop (before ++ t :: after)%list
  = (table_report <$> (before ++ [t])%list, Some e).
Proof.
  intros Hbefore Ht.
  induction Hbefore as [|[src dest] before Hsrc _ IH].
  - destruct t as [src dest]. cbn [app migrate_loop fmap list_fmap].
    unfold table_report. cbn [fst snd] in *.
    destruct (migrate_table src dest) as [actions raised].
    cbn [snd] in Ht. now subst raised.
  - cbn [app migrate_loop fmap list_fmap]. unfold table_report at 1.
    cbn [fst snd] in *.
    destruct (migrate_table src dest) as [actions raised].
    cbn [snd] in Hsrc. subst raised. now rewrite IH.
Qed.

(** X14. A run in which no table raises reaches every table: the log has
    one entry per table, in the order of the source, and nothing is
    rolled back. *)
Theorem run_without_exception (tables : list (source_table * dest_answers)) :
  Forall (fun t => (migrate_table t.1 t.2).2 = None) tables ->
  migrate tables = (table_report <$> tables, [], None).
Proof.
  intros H. unfold migrate. now rewrite migrate_loop_quiet.
Qed.

(** X15. A run stops at the first table that raises: the tables before
    it and that table are in the log, the tables after it are never
    reached, one rollback is sent and the exception is raised again. *)
Theorem run_stops_at_first_failure
    (before : list (source_table * dest_answers))
    (t : source_table * dest_answers)
    (after : list (source_table * dest_answers)) (e : exn) :
  Forall (fun t => (migrate_table t.1 t.2).2 = None) before ->
  (migrate_table t.1 t.2).2 = Some e ->
  migrate (before ++ t :: after)%list
  = (table_report <$> (before ++ [t])%list, [Rollback], Some e).
Proof.
  intros Hbefore Ht. unfold migrate.
  now rewrite (migrate_loop_failure before t after e).
Qed.

(** X16. A run over tables that are all bookkeeping tables or already
    have rows at the destination sends the destination nothing: running
    the script again on a destination that is filled changes nothing. *)
Theorem run_over_filled_destination
    (tables : list (source_table * dest_answers)) :
  Forall left_alone tables ->
  migrate tables = ((fun t => (table_name t.1, [])) <$> tables, [], None).
Proof.
  intros H. unfold migrate. rewrite migrate_loop_quiet.
  - f_equal. f_equal. apply Forall_fmap_ext_1.
    eapply Forall_impl; [exact H |].
    intros [src dest] Hl. unfold table_report. cbn [fst snd].
    now rewrite left_alone_skipped.
  - eapply Forall_impl; [exact H |].
    intros [src dest] Hl. cbn [fst snd]. now rewrite left_alone_skipped.
Qed.

End Migrator.

(** ** The primitives and the program on sample inputs *)

Example lower_mixed : PyStr.lower "UsEr_1" = "user_1".
Proof. reflexivity. Qed.

Example upper_mixed : PyStr.upper no_case "varchar(255)" = "VARCHAR(255)".
Proof. reflexivity. Qed.

Example strip_both : PyStr.strip "  a b  " = "a b".
Proof. reflexivity. Qed.

Example strip_unicode_space :
  PyStr.strip (PyStr.bytes [194; 160; 97; 32; 98; 226; 128; 131; 10]%N) = "a b"
  /\ PyStr.strip (PyStr.bytes [195; 160; 32]%N) = PyStr.bytes [195; 160]%N
  /\ PyStr.strip (PyStr.bytes [9; 227; 128; 128]%N) = EmptyString.
Proof. repeat split; vm_compute; reflexivity. Qed.

Example replace_word : PyStr.replace "abcabc" "bc" "-" = "a-a-".
Proof. reflexivity. Qed.

Example replace_overlap : PyStr.replace "aaa" "aa" "b" = "ba".
Proof. reflexivity. Qed.

Example replace_empty_old : PyStr.replace "ab" EmptyString "-" = "-a-b-".
Proof. reflexivity. Qed.

Example split_commas : PyStr.split "a,,b," "," = Some ["a"; EmptyString; "b"; EmptyString].
Proof. reflexivity. Qed.

Example split_word : PyStr.split "a--b-c" "--" = Some ["a"; "b-c"].
Proof. reflexivity. Qed.

Example of_int_samples :
  PyStr.of_int 0 = "0" /\ PyStr.of_int 42 = "42" /\ PyStr.of_int (-7) = "-7".
Proof. repeat split; reflexivity. Qed.

Example bytes_repr_sample :
  PyBytes.repr (String "a" (String "'" (String (ascii_of_N 10) (String (ascii_of_N 255) EmptyString))))
  = String "b" (dquote +:+ "a'\n\xff" +:+ dquote).
Proof. reflexivity. Qed.

Example safe_identifier_samples :
  get_safe_identifier "User" = dquote +:+ "User" +:+ dquote
  /\ get_safe_identifier "orders" = "orders"
  /\ get_safe_identifier "user_id" = "user_id".
Proof. repeat split; vm_compute; reflexivity. Qed.

Example type_mapper_samples :
  sqlite_to_pg_type no_case "INTEGER" "id" = "INTEGER"
  /\ sqlite_to_pg_type no_case "blob" "data" = "BYTEA"
  /\ sqlite_to_pg_type no_case "FOOBAR" "x" = "TEXT"
  /\ sqlite_to_pg_type no_case "INTEGER" "Scope" = "TEXT[]"
  /\ sqlite_to_pg_type no_case EmptyString "x" = "TEXT".
Proof. repeat split; vm_compute; reflexivity. Qed.

Example boolean_samples :
  let types := pg_column_types [PgColumn "active" "boolean" "bool"] in
  map (translate_value no_float types "active")
      [VInt 1; VInt 0; VInt 2; VInt (-1); VFloat PrimFloat.one; VStr "1"; VNone]
  = map inr ["true"; "false"; "false"; "false"; "true"; "false"; "NULL"].
Proof. vm_compute. reflexivity. Qed.

Example text_with_backslash :
  translate_value no_float ∅ "path" (VStr "a\b'c") = inr "'a\b''c'".
Proof. vm_compute. reflexivity. Qed.

Example array_with_spaces :
  let types := pg_column_types [PgColumn "scope" "ARRAY" "_text"] in
  translate_value no_float types "scope" (VStr " read , it's ,") = inr "ARRAY['read','it''s','']".
Proof. vm_compute. reflexivity. Qed.

(** ** The theorems at concrete inputs *)

Lemma text_literal_doubles_quotes_witness :
  let types := pg_column_types (pg_columns empty_at_destination) in
  types !! "name" <> Some "boolean"
  /\ types !! "name" <> Some "ARRAY"
  /\ translate_value no_float types "name" (VStr "O'Brien") = inr "'O''Brien'".
Proof.
  intros types.
  assert (Hb : types !! "name" <> Some "boolean") by (vm_compute; discriminate).
  assert (Ha : types !! "name" <> Some "ARRAY") by (vm_compute; discriminate).
  split; [exact Hb | split; [exact Ha |]].
  exact (proj1 (text_literal_doubles_quotes no_float types "name" "O'Brien" Hb Ha)).
Defined.

Lemma array_literal_from_pieces_witness :
  let types := pg_column_types (pg_columns empty_at_destination) in
  types !! "scope" = Some "ARRAY"
  /\ "a,b,c" <> EmptyString
  /\ translate_value no_float types "scope" (VStr "a,b,c") = inr "ARRAY['a','b','c']".
Proof.
  intros types.
  assert (Ha : types !! "scope" = Some "ARRAY") by (vm_compute; reflexivity).
  assert (Hs : "a,b,c" <> EmptyString) by discriminate.
  split; [exact Ha | split; [exact Hs |]].
  destruct (array_literal_from_pieces no_float types "scope" Ha) as (_ & _ & H & _).
  exact (proj1 (H "a,b,c" Hs)).
Defined.

(** C2 as stated fails: a number in a column whose destination kind is
    array is neither NULL nor empty, yet it is not split and no ARRAY
    literal is emitted for it: the translator raises. *)
Lemma number_in_array_column_not_split :
  let types := pg_column_types [PgColumn "tags" "ARRAY" "_int4"] in
  types !! "tags" = Some "ARRAY"
  /\ translate_value no_float types "tags" (VInt 7) = inl AttributeError
  /\ ~ (exists literal, translate_value no_float types "tags" (VInt 7) = inr literal).
Proof.
  intros types.
  assert (H : translate_value no_float types "tags" (VInt 7) = inl AttributeError)
    by (vm_compute; reflexivity).
  split; [vm_compute; reflexivity | split; [exact H |]].
  intros (literal & Hlit). rewrite H in Hlit. discriminate Hlit.
Qed.

Lemma boolean_literal_is_equality_with_one_witness :
  let types := pg_column_types [PgColumn "active" "boolean" "bool"] in
  types !! "active" = Some "boolean"
  /\ VInt 1 <> VNone
  /\ Spec.numerically_one (VInt 1)
  /\ translate_value no_float types "active" (VInt 1) = inr "true".
Proof.
  intros types.
  assert (Hb : types !! "active" = Some "boolean") by (vm_compute; reflexivity).
  assert (Hn : VInt 1 <> VNone) by discriminate.
  assert (H1 : Spec.numerically_one (VInt 1)) by (left; reflexivity).
  split; [exact Hb | split; [exact Hn | split; [exact H1 |]]].
  exact (proj1 (boolean_literal_is_equality_with_one
                  no_float types "active" (VInt 1) Hb Hn) H1).
Defined.

Lemma translate_row_one_literal_per_column_witness :
  let types := pg_column_types (pg_columns empty_at_destination) in
  let names := ["id"; "name"; "scope"] in
  let row := [VInt 1; VStr "A's"; VStr "read,write"] in
  let literals := ["1"; "'A''s'"; "ARRAY['read','write']"] in
  length names = length row
  /\ translate_row no_float types names row = inr literals
  /\ length literals = length names.
Proof.
  intros types names row literals.
  assert (Hlen : length names = length row) by reflexivity.
  assert (Hrow : translate_row no_float types names row = inr literals)
    by (vm_compute; reflexivity).
  split; [exact Hlen | split; [exact Hrow |]].
  exact (proj1 (proj1 (translate_row_one_literal_per_column
                         no_float types names row Hlen) literals Hrow)).
Defined.

Lemma sqlite_to_pg_type_rules_witness :
  PyStr.lower "data" <> "scope"
  /\ (("BLOB", "BYTEA") ∈ Spec.type_table)
  /\ PyStr.upper no_case "blob" = "BLOB"
  /\ sqlite_to_pg_type no_case "blob" "data" = "BYTEA".
Proof.
  assert (Hname : PyStr.lower "data" <> "scope") by discriminate.
  assert (Hin : ("BLOB", "BYTEA") ∈ Spec.type_table).
  { unfold Spec.type_table. rewrite !elem_of_cons. tauto. }
  assert (Hkey : PyStr.upper no_case "blob" = "BLOB") by reflexivity.
  split; [exact Hname | split; [exact Hin | split; [exact Hkey |]]].
  destruct (sqlite_to_pg_type_rules no_case "blob" "data") as (_ & _ & Htable & _).
  exact (Htable Hname "BLOB" "BYTEA" Hin Hkey).
Defined.

Lemma planner_decides_in_order_witness :
  ("orders" ∉ exclusion_set)
  /\ plan "orders" false 0 = CreateAndMigrate
  /\ migrate_table no_float no_case orders_table absent_at_destination
     = carry_out no_float no_case CreateAndMigrate orders_table absent_at_destination.
Proof.
  assert (Hout : "orders" ∉ exclusion_set).
  { unfold exclusion_set.
    rewrite elem_of_union, !elem_of_singleton. intros [H | H]; discriminate H. }
  destruct (planner_decides_in_order no_float no_case orders_table absent_at_destination)
    as (Hcode & _ & _ & _ & Hcreate).
  split; [exact Hout | split; [exact (Hcreate Hout eq_refl) |]].
  rewrite <- (Hcreate Hout eq_refl). exact Hcode.
Defined.

Lemma populated_table_never_written_witness :
  table_exists populated_at_destination = true
  /\ row_count populated_at_destination > 0
  /\ migrate_table no_float no_case orders_table populated_at_destination = ([], None).
Proof.
  assert (Hex : table_exists populated_at_destination = true) by reflexivity.
  assert (Hpos : row_count populated_at_destination > 0) by reflexivity.
  split; [exact Hex | split; [exact Hpos |]].
  exact (proj1 (populated_table_never_written
                  no_float no_case orders_table populated_at_destination Hex Hpos)).
Defined.

(** C9 as stated fails: an integer in a column whose destination kind is
    array has no [split], the row translator raises and there is no
    output at all. *)
Lemma integer_in_array_column_raises :
  let types := pg_column_types [PgColumn "ids" "ARRAY" "_int4"] in
  translate_row no_float types ["ids"] [VInt 5] = inl AttributeError
  /\ ~ (exists literals,
          translate_row no_float types ["ids"] [VInt 5] = inr literals
          /\ length literals = length ["ids"]).
Proof.
  intros types.
  assert (H : translate_row no_float types ["ids"] [VInt 5] = inl AttributeError)
    by (vm_compute; reflexivity).
  split; [exact H |].
  intros (literals & Hlit & _). rewrite H in Hlit. discriminate Hlit.
Qed.

(** ** The further properties at concrete inputs *)

Lemma quoted_reads_back_witness :
  Spec.first_char ", 5)" <> Some Spec.single_quote
  /\ Sql.read_literal ("'A''s', 5)") = Some ("A's", ", 5)").
Proof.
  assert (H : Spec.first_char ", 5)" <> Some Spec.single_quote) by discriminate.
  split; [exact H |]. exact (quoted_reads_back "A's" ", 5)" H).
Defined.

Lemma quoted_injective_witness :
  quoted "it's" = quoted (PyStr.lower "IT'S") /\ "it's" = PyStr.lower "IT'S".
Proof.
  assert (H : quoted "it's" = quoted (PyStr.lower "IT'S")) by reflexivity.
  split; [exact H |]. exact (quoted_injective "it's" (PyStr.lower "IT'S") H).
Defined.

Lemma array_elements_count_witness :
  let types := pg_column_types [PgColumn "scope" "ARRAY" "_text"] in
  types !! "scope" = Some "ARRAY"
  /\ "a,,b," <> EmptyString
  /\ exists elements,
       value_split (VStr "a,,b,") "," = inr elements
       /\ length elements = 4%nat.
Proof.
  intros types.
  assert (Ha : types !! "scope" = Some "ARRAY") by (vm_compute; reflexivity).
  assert (Hs : "a,,b," <> EmptyString) by discriminate.
  split; [exact Ha | split; [exact Hs |]].
  destruct (array_elements_count no_float types "scope" "a,,b," Ha Hs)
    as (elements & Hsplit & Hlen & _).
  exists elements. split; [exact Hsplit | exact Hlen].
Defined.

Lemma integer_literal_reads_back_witness :
  (∅ : gmap string string) !! "id" <> Some "boolean"
  /\ (∅ : gmap string string) !! "id" <> Some "ARRAY"
  /\ exists literal,
       translate_value no_float ∅ "id" (VInt (-7)) = inr literal
       /\ Sql.read_int literal = Some (-7).
Proof.
  assert (Hb : (∅ : gmap string string) !! "id" <> Some "boolean") by discriminate.
  assert (Ha : (∅ : gmap string string) !! "id" <> Some "ARRAY") by discriminate.
  split; [exact Hb | split; [exact Ha |]].
  exact (integer_literal_reads_back no_float ∅ "id" (-7) Hb Ha).
Defined.

Lemma column_types_lookup_witness :
  let text_row := PgColumn "scope" "text" "text" in
  let array_row := PgColumn "scope" "ARRAY" "_text" in
  let id_row := PgColumn "id" "integer" "int4" in
  let cols := [text_row; array_row; id_row] in
  cols = ([text_row] ++ array_row :: [id_row])%list
  /\ column_name array_row = "scope"
  /\ ("scope" ∉ column_name <$> [id_row])
  /\ pg_column_types cols !! "scope" = Some "ARRAY".
Proof.
  intros text_row array_row id_row cols.
  assert (Hcols : cols = ([text_row] ++ array_row :: [id_row])%list) by reflexivity.
  assert (Hname : column_name array_row = "scope") by reflexivity.
  assert (Hlater : "scope" ∉ column_name <$> [id_row]).
  { cbn. rewrite not_elem_of_cons. split; [discriminate |].
    intros H. now apply elem_of_nil in H. }
  split; [exact Hcols | split; [exact Hname | split; [exact Hlater |]]].
  exact (proj2 (column_types_lookup cols "scope")
           [text_row] array_row [id_row] Hcols Hname Hlater).
Defined.

Lemma unlisted_columns_plain_witness :
  (forall name, name ∈ column_names orders_table ->
                name ∉ column_name <$> pg_columns absent_at_destination)
  /\ translate_row no_float (pg_column_types (pg_columns absent_at_destination))
       (column_names orders_table) [VInt 1; VStr "A's"; VStr "read,write"]
     = inr ["1"; "'A''s'"; "'read,write'"].
Proof.
  assert (H : forall name, name ∈ column_names orders_table ->
                name ∉ column_name <$> pg_columns absent_at_destination).
  { intros name _ Hin. now apply elem_of_nil in Hin. }
  split; [exact H |].
  exact (unlisted_columns_plain no_float (pg_columns absent_at_destination)
           (column_names orders_table) [VInt 1; VStr "A's"; VStr "read,write"] H).
Defined.

Lemma array_column_other_values_witness :
  let types := pg_column_types [PgColumn "ids" "ARRAY" "_int4"] in
  types !! "ids" = Some "ARRAY"
  /\ truthy (VInt 5) = true
  /\ (forall s, VInt 5 <> VStr s)
  /\ translate_value no_float types "ids" (VInt 5) = inl AttributeError.
Proof.
  intros types.
  assert (Ha : types !! "ids" = Some "ARRAY") by (vm_compute; reflexivity).
  assert (Ht : truthy (VInt 5) = true) by reflexivity.
  assert (Hs : forall s, VInt 5 <> VStr s) by discriminate.
  split; [exact Ha | split; [exact Ht | split; [exact Hs |]]].
  exact (proj2 (array_column_other_values no_float types "ids" (VInt 5) Ha) Ht Hs).
Defined.

Lemma translate_row_truncates_witness :
  translate_row no_float ∅ ["id"; "name"; "scope"] [VInt 1; VStr "a"]
  = inr ["1"; "'a'"]
  /\ length ["1"; "'a'"] = 2%nat.
Proof.
  assert (H : translate_row no_float ∅ ["id"; "name"; "scope"] [VInt 1; VStr "a"]
              = inr ["1"; "'a'"]) by (vm_compute; reflexivity).
  split; [exact H |].
  exact (translate_row_truncates no_float ∅ ["id"; "name"; "scope"]
           [VInt 1; VStr "a"] ["1"; "'a'"] H).
Defined.

Lemma null_literal_only_for_null_witness :
  (forall x, VStr "NULL" <> VFloat x)
  /\ translate_value no_float ∅ "note" (VStr "NULL") <> inr "NULL".
Proof.
  assert (Hf : forall x, VStr "NULL" <> VFloat x) by discriminate.
  split; [exact Hf |].
  intros H.
  apply (proj1 (null_literal_only_for_null no_float ∅ "note" (VStr "NULL") Hf)) in H.
  destruct H as [H | [H _]]; discriminate H.
Defined.


Lemma run_without_exception_witness :
  let tables := [(orders_table, empty_at_destination);
                 (orders_table, populated_at_destination)] in
  Forall (fun t => (migrate_table no_float no_case t.1 t.2).2 = None) tables
  /\ (migrate no_float no_case tables).1.1 = table_report no_float no_case <$> tables.
Proof.
  intros tables.
  assert (H : Forall (fun t => (migrate_table no_float no_case t.1 t.2).2 = None) tables).
  { repeat constructor. }
  split; [exact H |].
  now rewrite (run_without_exception no_float no_case tables H).
Defined.

Lemma run_stops_at_first_failure_witness :
  let bad := (SourceTable "groups" [SqliteColumn 0 "ids" "INTEGER"] ["ids"] [[VInt 5]],
              DestAnswers true 0 [PgColumn "ids" "ARRAY" "_int4"]) in
  let first := (orders_table, empty_at_destination) in
  let last := (orders_table, absent_at_destination) in
  Forall (fun t => (migrate_table no_float no_case t.1 t.2).2 = None) [first]
  /\ (migrate_table no_float no_case bad.1 bad.2).2 = Some AttributeError
  /\ migrate no_float no_case [first; bad; last]
     = ([table_report no_float no_case first; ("groups", [])], [Rollback], Some AttributeError).
Proof.
  intros bad first last.
  assert (Hfirst : Forall (fun t => (migrate_table no_float no_case t.1 t.2).2 = None) [first]).
  { repeat constructor. }
  assert (Hbad : (migrate_table no_float no_case bad.1 bad.2).2 = Some AttributeError)
    by (vm_compute; reflexivity).
  split; [exact Hfirst | split; [exact Hbad |]].
  exact (run_stops_at_first_failure no_float no_case [first] bad [last] AttributeError
           Hfirst Hbad).
Defined.

Lemma run_over_filled_destination_witness :
  let tables :=
    [(orders_table, populated_at_destination);
     (SourceTable "alembic_version" [] [] [], absent_at_destination)] in
  Forall left_alone tables
  /\ migrate no_float no_case tables = ([("orders", []); ("alembic_version", [])], [], None).
Proof.
  intros tables.
  assert (H : Forall left_alone tables).
  { constructor; [right; split; reflexivity |].
    constructor; [| constructor].
    left. cbn [fst table_name]. unfold exclusion_set.
    rewrite elem_of_union, !elem_of_singleton. now right. }
  split; [exact H |].
  exact (run_over_filled_destination no_float no_case tables H).
Defined.
